(** * The reparameterization-trick notebook: gradient-variance experiment

    A shallow embedding of the two code cells of
    [experiments/Reparameterization Trick.ipynb]:

    - cell 5 defines the two Monte Carlo gradient estimators, the lambdas
      [grad1] (score function) and [grad2] (reparameterized);
    - cell 7 is the experiment loop: for every sample size it repeats a
      trial, stores the two estimates in the buffers [est1] and [est2], and
      records their mean and variance.

    The notebook is a script over module-level names ([theta], [x], [eps],
    [est1], ...) and numpy's process-wide random generator.  The names
    live in a record of globals, the generator is one of its fields, and
    the cells are programs in a state-and-exception monad over it. *)

From Stdlib Require Import ZArith List Lia Floats Permutation.
From Stdlib Require Reals.
From stdpp Require Import base list.

Set Default Proof Using "Type".
Set Warnings "-inexact-float".
Local Open Scope Z_scope.

(** ** Numbers

    numpy arrays of dtype float64 and Python floats are IEEE binary64
    numbers.  The cells are written once over the operations they apply;
    [binary64] below is the notebook's own arithmetic, and the class lets
    a statement say which laws of arithmetic it relies on. *)

Class Arith (F : Type) := {
  fzero : F;                (* 0.0: what np.zeros holds, where np.sum starts *)
  fadd : F -> F -> F;       (* +  *)
  fsub : F -> F -> F;       (* -  *)
  fmul : F -> F -> F;       (* *  *)
  fdiv : F -> F -> F;       (* /  (true division) *)
  fabs : F -> F;            (* abs *)
  fpow : F -> F -> F;       (* ** on floats: the C library's pow *)
  of_int : Z -> F;          (* a Python int where a float is expected *)
}.

(** Conversion of a Python int to binary64; array sizes and the literals of
    the notebook are far below 2^63. *)
Definition float_of_int (z : Z) : float :=
  match z with
  | Z0 => 0%float
  | Zpos _ => PrimFloat.of_uint63 (Uint63.of_Z z)
  | Zneg p => PrimFloat.opp (PrimFloat.of_uint63 (Uint63.of_Z (Zpos p)))
  end.

(** The notebook's arithmetic, for a given implementation of [pow]. *)
Definition binary64 (pow : float -> float -> float) : Arith float := {|
  fzero := 0%float;
  fadd := PrimFloat.add;
  fsub := PrimFloat.sub;
  fmul := PrimFloat.mul;
  fdiv := PrimFloat.div;
  fabs := PrimFloat.abs;
  fpow := pow;
  of_int := float_of_int;
|}.

(** A binary64 [pow] for the two exponents the notebook uses, through
    square roots: [b ** 0.25 = sqrt (sqrt b)] and
    [b ** 1.75 = b * sqrt b * sqrt (sqrt b)].  It agrees with the C
    library wherever these are exact (in particular at 0, 1 and 16) and is
    used to evaluate the cells on concrete arrays. *)
Definition pow_sqrt (b e : float) : float :=
  if PrimFloat.eqb e 0.25%float then PrimFloat.sqrt (PrimFloat.sqrt b)
  else if PrimFloat.eqb e 1.75%float
       then PrimFloat.mul (PrimFloat.mul b (PrimFloat.sqrt b))
                          (PrimFloat.sqrt (PrimFloat.sqrt b))
       else PrimFloat.nan.

Definition is_nan (v : float) : bool := negb (PrimFloat.eqb v v).

(** Zeros, subnormal and normal numbers: everything but NaN and the
    infinities. *)
Definition is_finite (v : float) : bool :=
  match Prim2SF v with
  | S754_zero _ | S754_finite _ _ _ => true
  | S754_infinity _ | S754_nan => false
  end.

(** Sign bit clear, or NaN: what is never below zero. *)
Definition SF_nonneg (f : spec_float) : Prop :=
  match f with
  | S754_nan => True
  | S754_zero b | S754_infinity b | S754_finite b _ _ => b = false
  end.

(** The arithmetic of the specification's "real" values: exact real
    numbers, where addition is associative and nothing is rounded. *)
Definition reals : Arith Rdefinitions.R := {|
  fzero := Rdefinitions.IZR 0;
  fadd := Rdefinitions.Rplus;
  fsub := Rdefinitions.Rminus;
  fmul := Rdefinitions.Rmult;
  fdiv := Rdefinitions.Rdiv;
  fabs := Rbasic_fun.Rabs;
  fpow := Rpower.Rpower;
  of_int := Rdefinitions.IZR;
|}.

(** ** The random generator

    [np.random.randn] draws from numpy's process-wide generator: a state
    that every draw advances. *)

Class Rng (G F : Type) := {
  gauss : G -> F * G;       (* one standard-normal draw *)
}.

(** A generator that replays a fixed list of draws (then zeros). *)
Definition tape (F : Type) `{Arith F} : Rng (list F) F := {|
  gauss g := match g with [] => (fzero, []) | v :: g' => (v, g') end;
|}.

(** ** Exceptions *)

Inductive exn : Type :=
  | ValueError    (* numpy: negative dimensions are not allowed *)
  | IndexError.   (* numpy: index out of bounds *)

Inductive result (A : Type) : Type :=
  | Ok (a : A)
  | Raise (e : exn).
Arguments Ok {A} a.
Arguments Raise {A} e.

Section Notebook.
Context {F G : Type} `{Arith F} `{Rng G F}.

(** ** numpy primitives *)

(** [np.zeros(n)], for a dimension that numpy can allocate.  (numpy also
    raises on a dimension beyond its index type or the machine's memory;
    statements about which configurations return are made for dimensions
    up to [max_dim] below.) *)
Definition np_zeros (n : Z) : result (list F) :=
  if n <? 0 then Raise ValueError else Ok (replicate (Z.to_nat n) fzero).

(** [np.sum(a)]: add.reduce starts from the identity 0.0 and adds the
    elements in order.  (numpy adds arrays of fewer than 8 elements
    exactly in this order and longer ones pairwise by blocks, which can
    change the association of the additions.) *)
Definition np_sum (a : list F) : F := fold_left fadd a fzero.

(** [a.size] where a float is expected. *)
Definition size (a : list F) : F := of_int (Z.of_nat (length a)).

(** [np.mean(a)]: the sum divided by the number of elements. *)
Definition np_mean (a : list F) : F := fdiv (np_sum a) (size a).

(** [np.var(a)] with the default [ddof=0]: the mean of the squared
    deviations from [np.mean(a)]. *)
Definition np_var (a : list F) : F :=
  let arrmean := np_mean a in
  let d := map (fun v => fsub v arrmean) a in
  fdiv (np_sum (zip_with fmul d d)) (size a).

(** [n] consecutive draws, in the order they fill the array. *)
Fixpoint draws (n : nat) (g : G) : list F * G :=
  match n with
  | O => ([], g)
  | S k => let (v, g1) := gauss g in
           let (vs, g2) := draws k g1 in
           (v :: vs, g2)
  end.

(** [a[k] = v] for an index produced by [range] or [enumerate]. *)
Definition setitem (a : list F) (k : nat) (v : F) : result (list F) :=
  if (k <? length a)%nat then Ok (<[k := v]> a) else Raise IndexError.

(** ** The module-level names *)

Record globals : Type := Globals {
  theta : F;
  x : list F;
  eps : list F;
  est1 : list F;
  est2 : list F;
  means1 : list F;
  vars1 : list F;
  means2 : list F;
  vars2 : list F;
  rng : G;
}.

(** Programs: read and write the globals, or raise. *)
Definition M (A : Type) : Type := globals -> result (A * globals).

Definition ret {A} (a : A) : M A := fun s => Ok (a, s).

Definition bind {A B} (m : M A) (k : A -> M B) : M B :=
  fun s => match m s with
           | Ok (a, s') => k a s'
           | Raise e => Raise e
           end.

Definition lift {A} (r : result A) : M A :=
  fun s => match r with Ok a => Ok (a, s) | Raise e => Raise e end.

Definition get {A} (f : globals -> A) : M A := fun s => Ok (f s, s).

Definition put (f : globals -> globals) : M unit := fun s => Ok (tt, f s).

Notation "'let!' v ':=' m 'in' k" := (bind m (fun v => k))
  (at level 10, v name, m at level 100, k at level 200).
Notation "m ;; k" := (bind m (fun _ => k))
  (at level 100, k at level 200, right associativity).

(** [for v in l: body v]. *)
Fixpoint for_each {A} (l : list A) (body : A -> M unit) : M unit :=
  match l with
  | [] => ret tt
  | v :: l' => body v ;; for_each l' body
  end.

(** [range(n)] and [enumerate(l)]. *)
Definition range (n : Z) : list nat := seq 0 (Z.to_nat n).
Definition enumerate {A} (l : list A) : list (nat * A) :=
  combine (seq 0 (length l)) l.

(** [np.random.randn(n)], for a dimension that numpy can allocate (see
    [np_zeros]). *)
Definition randn (n : Z) : M (list F) :=
  fun s =>
    if n <? 0 then Raise ValueError
    else let (vs, g) := draws (Z.to_nat n) (rng s) in
         Ok (vs, Globals (theta s) (x s) (eps s) (est1 s) (est2 s)
                   (means1 s) (vars1 s) (means2 s) (vars2 s) g).

(** Assignments to the module-level arrays. *)
Definition set_x (v : list F) : M unit :=
  put (fun s => Globals (theta s) v (eps s) (est1 s) (est2 s)
                  (means1 s) (vars1 s) (means2 s) (vars2 s) (rng s)).
Definition set_eps (v : list F) : M unit :=
  put (fun s => Globals (theta s) (x s) v (est1 s) (est2 s)
                  (means1 s) (vars1 s) (means2 s) (vars2 s) (rng s)).
Definition set_est1 (v : list F) : M unit :=
  put (fun s => Globals (theta s) (x s) (eps s) v (est2 s)
                  (means1 s) (vars1 s) (means2 s) (vars2 s) (rng s)).
Definition set_est2 (v : list F) : M unit :=
  put (fun s => Globals (theta s) (x s) (eps s) (est1 s) v
                  (means1 s) (vars1 s) (means2 s) (vars2 s) (rng s)).
Definition set_means1 (v : list F) : M unit :=
  put (fun s => Globals (theta s) (x s) (eps s) (est1 s) (est2 s)
                  v (vars1 s) (means2 s) (vars2 s) (rng s)).
Definition set_vars1 (v : list F) : M unit :=
  put (fun s => Globals (theta s) (x s) (eps s) (est1 s) (est2 s)
                  (means1 s) v (means2 s) (vars2 s) (rng s)).
Definition set_means2 (v : list F) : M unit :=
  put (fun s => Globals (theta s) (x s) (eps s) (est1 s) (est2 s)
                  (means1 s) (vars1 s) v (vars2 s) (rng s)).
Definition set_vars2 (v : list F) : M unit :=
  put (fun s => Globals (theta s) (x s) (eps s) (est1 s) (est2 s)
                  (means1 s) (vars1 s) (means2 s) v (rng s)).

(** ** Cell 5: the estimators

    [[
    grad1 = lambda x: np.sum((abs(x)**(1/4))*(x-theta)) / x.size
    grad2 = lambda eps:
        np.sum((theta + eps)/(4*abs(theta + eps)**(2-1/4))) / x.size
    ]]
    [1/4] is Python 3 true division; [theta] in both bodies and [x] in
    the body of [grad2] are module-level names, looked up at each call. *)

Definition quarter : F := fdiv (of_int 1) (of_int 4).

Definition grad1 (x_ : list F) : M F :=
  let! theta_ := get theta in
  let w := map (fun v => fpow v quarter) (map fabs x_) in
  let d := map (fun v => fsub v theta_) x_ in
  ret (fdiv (np_sum (zip_with fmul w d)) (size x_)).

Definition grad2 (eps_ : list F) : M F :=
  let! theta_ := get theta in
  let! x_ := get x in
  let y := map (fun e => fadd theta_ e) eps_ in
  let p := map (fun v => fpow v (fsub (of_int 2) quarter)) (map fabs y) in
  let q := map (fun v => fmul (of_int 4) v) p in
  ret (fdiv (np_sum (zip_with fdiv y q)) (size x_)).

(** ** Cell 7: the experiment loop

    [[
    means1 = np.zeros(len(Ns)); vars1 = ...; means2 = ...; vars2 = ...
    est1 = np.zeros(reps)
    est2 = np.zeros(reps)
    for i, N in enumerate(Ns):
        for r in range(reps):
            x = np.random.randn(N) + theta
            est1[r] = grad1(x)
            eps = np.random.randn(N)
            est2[r] = grad2(eps)
        means1[i] = np.mean(est1)
        means2[i] = np.mean(est2)
        vars1[i] = np.var(est1)
        vars2[i] = np.var(est2)
    ]]
    [Ns] and [reps], literals in the notebook, are the configuration. *)

(** The body of the inner loop. *)
Definition trial (N : Z) (r : nat) : M unit :=
  let! z := randn N in
  let! theta_ := get theta in
  set_x (map (fun v => fadd v theta_) z) ;;
  let! x_ := get x in
  let! v1 := grad1 x_ in
  let! e1 := get est1 in
  let! e1' := lift (setitem e1 r v1) in
  set_est1 e1' ;;
  let! e := randn N in
  set_eps e ;;
  let! eps_ := get eps in
  let! v2 := grad2 eps_ in
  let! e2 := get est2 in
  let! e2' := lift (setitem e2 r v2) in
  set_est2 e2'.

(** The four assignments after the inner loop. *)
Definition aggregate (i : nat) : M unit :=
  let! e1 := get est1 in
  let! e2 := get est2 in
  let! m1 := get means1 in
  let! m1' := lift (setitem m1 i (np_mean e1)) in
  set_means1 m1' ;;
  let! m2 := get means2 in
  let! m2' := lift (setitem m2 i (np_mean e2)) in
  set_means2 m2' ;;
  let! v1 := get vars1 in
  let! v1' := lift (setitem v1 i (np_var e1)) in
  set_vars1 v1' ;;
  let! v2 := get vars2 in
  let! v2' := lift (setitem v2 i (np_var e2)) in
  set_vars2 v2'.

(** The body of the outer loop. *)
Definition per_size (reps : Z) (iN : nat * Z) : M unit :=
  for_each (range reps) (trial (snd iN)) ;;
  aggregate (fst iN).

Definition cell7 (Ns : list Z) (reps : Z) : M unit :=
  let! z := lift (np_zeros (Z.of_nat (length Ns))) in set_means1 z ;;
  let! z := lift (np_zeros (Z.of_nat (length Ns))) in set_vars1 z ;;
  let! z := lift (np_zeros (Z.of_nat (length Ns))) in set_means2 z ;;
  let! z := lift (np_zeros (Z.of_nat (length Ns))) in set_vars2 z ;;
  let! z := lift (np_zeros reps) in set_est1 z ;;
  let! z := lift (np_zeros reps) in set_est2 z ;;
  for_each (enumerate Ns) (per_size reps).

(** ** The specification's operations

    The estimators and the experiment as the specification words them,
    to be compared with the cells above. *)

(** [Σ_i t(a_i)], accumulated in array order from 0. *)
Definition big_sum {A} (t : A -> F) (a : list A) : F :=
  fold_left (fun acc v => fadd acc (t v)) a fzero.

(** The objective integrand [f(x) = |x|^(1/4)] and the derivative
    [g(y) = y / (4*|y|^(2 - 1/4))]. *)
Definition f_integrand (v : F) : F := fpow (fabs v) quarter.
Definition g_derivative (y : F) : F :=
  fdiv y (fmul (of_int 4) (fpow (fabs y) (fsub (of_int 2) quarter))).

(** [(1/N) Σ f(x_i) (x_i − theta)]. *)
Definition score_function_estimator (samples : list F) (theta_ : F) : F :=
  fdiv (big_sum (fun v => fmul (f_integrand v) (fsub v theta_)) samples)
       (of_int (Z.of_nat (length samples))).

(** [(1/N) Σ g(theta + ε_i)]. *)
Definition reparameterized_estimator (epsilons : list F) (theta_ : F) : F :=
  fdiv (big_sum (fun e => g_derivative (fadd theta_ e)) epsilons)
       (of_int (Z.of_nat (length epsilons))).

(** One trial at sample size [N]: [N] fresh draws shifted by [theta] for
    the score-function estimator, then [N] further fresh draws, unshifted,
    for the reparameterized one. *)
Definition trial_spec (theta_ : F) (N : nat) (g : G) : (F * F) * G :=
  let (z, g1) := draws N g in
  let (e, g2) := draws N g1 in
  ((score_function_estimator (map (fun v => fadd v theta_) z) theta_,
    reparameterized_estimator e theta_), g2).

(** [k] trials in a row. *)
Fixpoint trials_spec (theta_ : F) (N k : nat) (g : G) : list (F * F) * G :=
  match k with
  | O => ([], g)
  | S k' => let (v, g1) := trial_spec theta_ N g in
            let (vs, g2) := trials_spec theta_ N k' g1 in
            (v :: vs, g2)
  end.

(** What the experiment records for one sample size. *)
Record summary : Type := Summary {
  mean_estimator_A : F;
  var_estimator_A : F;
  mean_estimator_B : F;
  var_estimator_B : F;
}.

Definition summarize (vs : list (F * F)) : summary :=
  Summary (np_mean (map fst vs)) (np_var (map fst vs))
          (np_mean (map snd vs)) (np_var (map snd vs)).

(** [run]: for each sample size, [reps] trials and their summary, keyed
    by the sample size. *)
Fixpoint run_spec (theta_ : F) (Ns : list Z) (reps : Z) (g : G)
  : list (Z * summary) * G :=
  match Ns with
  | [] => ([], g)
  | N :: Ns' =>
      let (vs, g1) := trials_spec theta_ (Z.to_nat N) (Z.to_nat reps) g in
      let (rest, g2) := run_spec theta_ Ns' reps g1 in
      ((N, summarize vs) :: rest, g2)
  end.

(** One column of a list of keyed summaries. *)
Definition column (f : summary -> F) (res : list (Z * summary)) : list F :=
  map (fun p => f (snd p)) res.

(** The configurations on which no numpy call of cell 7 raises:
    [np.zeros(reps)] needs [reps >= 0], and [np.random.randn(N)], reached
    only when the inner loop runs at all, needs [N >= 0]. *)
Definition accepted (Ns : list Z) (reps : Z) : bool :=
  (0 <=? reps) && ((reps =? 0) || forallb (fun N => 0 <=? N) Ns).

(** A bound on array dimensions well inside what numpy allocates: [2^20]
    float64 values are 8 MiB.  [np_zeros] and [randn] above stand for
    numpy's functions on dimensions up to it. *)
Definition max_dim : Z := 2 ^ 20.

(** The ExperimentResult read off the four arrays of cell 7: entry [i]
    belongs to [Ns[i]]. *)
Definition summaries (s : globals) : list summary :=
  zip_with (fun ab cd => Summary (fst ab) (snd ab) (fst cd) (snd cd))
           (zip (means1 s) (vars1 s)) (zip (means2 s) (vars2 s)).

Definition experiment_result (Ns : list Z) (s : globals)
  : list (Z * summary) := zip Ns (summaries s).

(** The four result arrays, or the exception, of a run of cell 7. *)
Definition outcome (r : result (unit * globals))
  : result (list F * list F * list F * list F) :=
  match r with
  | Ok (_, s) => Ok (means1 s, vars1 s, means2 s, vars2 s)
  | Raise e => Raise e
  end.

(** ** Cell 5: one evaluation of both estimators

    [[
    N = 1000
    theta = 0.1
    eps = np.random.randn(N)
    x = theta + eps
    grad1 = lambda x: ...
    grad2 = lambda eps: ...
    print (grad1(x))
    print (grad2(eps))
    ]]
    [N] and [theta], literals in the notebook, are parameters; the result
    is the pair of printed values. *)

Definition set_theta (v : F) : M unit :=
  put (fun s => Globals v (x s) (eps s) (est1 s) (est2 s)
                  (means1 s) (vars1 s) (means2 s) (vars2 s) (rng s)).

Definition cell5 (N : Z) (theta0 : F) : M (F * F) :=
  set_theta theta0 ;;
  let! e := randn N in
  set_eps e ;;
  let! theta_ := get theta in
  let! eps_ := get eps in
  set_x (map (fun v => fadd theta_ v) eps_) ;;
  let! x_ := get x in
  let! p1 := grad1 x_ in
  let! eps_ := get eps in
  let! p2 := grad2 eps_ in
  ret (p1, p2).

(** The notebook run top to bottom: cell 5, then cell 7. *)
Definition notebook (N : Z) (theta0 : F) (Ns : list Z) (reps : Z)
  : M (F * F) :=
  let! printed := cell5 N theta0 in
  cell7 Ns reps ;;
  ret printed.

(** The number of draws a run of cell 7 takes from the generator: [N] for
    [x] and [N] for [eps], in each of the [reps] trials of each size. *)
Definition draws_used (Ns : list Z) (reps : Z) : Z :=
  2 * reps * foldr Z.add 0 Ns.

End Notebook.

(** ** A concrete notebook: binary64 numbers, [pow_sqrt], a replayed tape *)

Module Concrete.
Definition A64 : Arith float := binary64 pow_sqrt.
Definition tape64 : Rng (list float) float := @tape float A64.

(** Globals with the given [theta] and [x], every other array empty, and
    a generator that will give the listed draws. *)
Definition state (theta_ : float) (x_ : list float) (draws_ : list float)
  : @globals float (list float) :=
  Globals theta_ x_ [] [] [] [] [] [] [] draws_.

Definition grad1_64 := @grad1 float (list float) A64.
Definition grad2_64 := @grad2 float (list float) A64.
Definition cell7_64 := @cell7 float (list float) A64 tape64.
Definition np_mean64 := @np_mean float A64.
Definition np_var64 := @np_var float A64.
Definition cell5_64 := @cell5 float (list float) A64 tape64.
Definition notebook_64 := @notebook float (list float) A64 tape64.
End Concrete.

(** * Properties *)

Arguments trial : simpl never.

Section Estimators.
Context {F G : Type} `{Arith F} `{Rng G F}.

Implicit Types (s : @globals F G) (a : list F).

Lemma fold_zip_map_fusion (u v : F -> F) a acc :
  fold_left fadd (zip_with fmul (map u a) (map v a)) acc
  = fold_left (fun c w => fadd c (fmul (u w) (v w))) a acc.
Proof.
  revert acc; induction a as [|w a IH]; intros acc; simpl; [reflexivity|].
  apply IH.
Qed.

Lemma fold_zip_div_fusion (u v : F -> F) a acc :
  fold_left fadd (zip_with fdiv (map u a) (map v a)) acc
  = fold_left (fun c w => fadd c (fdiv (u w) (v w))) a acc.
Proof.
  revert acc; induction a as [|w a IH]; intros acc; simpl; [reflexivity|].
  apply IH.
Qed.

(** The sum [grad1] takes over its three intermediate arrays is the sum of
    the terms [f(x_i) * (x_i - theta)]. *)
Lemma score_sum_fused (theta_ : F) a :
  np_sum (zip_with fmul (map (fun v => fpow v quarter) (map fabs a))
                        (map (fun v => fsub v theta_) a))
  = big_sum (fun v => fmul (f_integrand v) (fsub v theta_)) a.
Proof.
  unfold np_sum, big_sum, f_integrand. rewrite (map_map fabs).
  apply (fold_zip_map_fusion (fun v => fpow (fabs v) quarter)
                             (fun v => fsub v theta_)).
Qed.

(** The sum [grad2] takes over its intermediate arrays is the sum of the
    terms [g(theta + e_i)]. *)
Lemma reparameterized_sum_fused (theta_ : F) a :
  let y := map (fun e => fadd theta_ e) a in
  let p := map (fun v => fpow v (fsub (of_int 2) quarter)) (map fabs y) in
  np_sum (zip_with fdiv y (map (fun v => fmul (of_int 4) v) p))
  = big_sum (fun e => g_derivative (fadd theta_ e)) a.
Proof.
  cbv zeta. unfold np_sum, big_sum, g_derivative. rewrite !map_map.
  apply (fold_zip_div_fusion
           (fun e => fadd theta_ e)
           (fun e => fmul (of_int 4)
                       (fpow (fabs (fadd theta_ e))
                             (fsub (of_int 2) quarter)))).
Qed.

Lemma grad1_value s a :
  grad1 a s = Ok (score_function_estimator a (theta s), s).
Proof.
  unfold grad1, bind, get, ret, score_function_estimator, size.
  rewrite score_sum_fused. reflexivity.
Qed.

Lemma grad2_value s a :
  grad2 a s
  = Ok (fdiv (big_sum (fun e => g_derivative (fadd (theta s) e)) a)
             (size (x s)), s).
Proof.
  unfold grad2, bind, get, ret.
  rewrite (reparameterized_sum_fused (theta s) a). reflexivity.
Qed.

End Estimators.

Section Loops.
Context {F G : Type} `{Arith F} `{Rng G F}.

Implicit Types (s : @globals F G) (a : list F) (g : G).

Lemma draws_length n g : length (fst (draws n g)) = n.
Proof.
  revert g; induction n as [|n IH]; intros g; simpl; [reflexivity|].
  destruct (gauss g) as [v g1]. specialize (IH g1).
  destruct (draws n g1) as [vs g2]. simpl in *. congruence.
Qed.

Lemma draws_add n m g :
  draws (n + m) g
  = let (u, g1) := draws n g in
    let (v, g2) := draws m g1 in
    (u ++ v, g2).
Proof.
  revert g; induction n as [|n IH]; intros g; simpl.
  - destruct (draws m g); reflexivity.
  - destruct (gauss g) as [w g0]. rewrite IH.
    destruct (draws n g0) as [u g1]. destruct (draws m g1) as [v g2].
    reflexivity.
Qed.

(** A trial consumes [2 N] consecutive draws of the generator: the first
    [N], shifted, are the samples of the score-function estimator, the
    next [N] the noise of the reparameterized one.  No draw serves both. *)
Lemma trial_spec_fresh_draws (theta_ : F) (N : nat) g :
  trial_spec theta_ N g
  = let (w, g') := draws (N + N) g in
    ((score_function_estimator (map (fun v => fadd v theta_) (take N w)) theta_,
      reparameterized_estimator (drop N w) theta_), g').
Proof.
  unfold trial_spec. rewrite draws_add.
  pose proof (draws_length N g) as L.
  destruct (draws N g) as [z g1]. simpl in L.
  destruct (draws N g1) as [e g2].
  subst N. rewrite take_app_length, drop_app_length.
  reflexivity.
Qed.

Lemma setitem_ok a k v :
  (k < length a)%nat -> setitem a k v = Ok (<[k := v]> a).
Proof.
  intros Hk. unfold setitem.
  destruct (Nat.ltb_spec k (length a)); [reflexivity|lia].
Qed.

Lemma setitem_out_of_range a k v :
  (length a <= k)%nat -> setitem a k v = Raise IndexError.
Proof.
  intros Hk. unfold setitem.
  destruct (Nat.ltb_spec k (length a)); [lia|reflexivity].
Qed.

(** One pass through the body of the inner loop, for a sample size that
    numpy accepts and an index inside both buffers. *)
Lemma trial_ok N r s :
  0 <= N -> (r < length (est1 s))%nat -> (r < length (est2 s))%nat ->
  trial N r s
  = let (z, g1) := draws (Z.to_nat N) (rng s) in
    let (e, g2) := draws (Z.to_nat N) g1 in
    let x_ := map (fun v => fadd v (theta s)) z in
    Ok (tt, Globals (theta s) x_ e
              (<[r := score_function_estimator x_ (theta s)]> (est1 s))
              (<[r := reparameterized_estimator e (theta s)]> (est2 s))
              (means1 s) (vars1 s) (means2 s) (vars2 s) g2).
Proof.
  intros HN Hr1 Hr2.
  pose proof (draws_length (Z.to_nat N) (rng s)) as Lz.
  unfold trial, bind at 1, randn.
  destruct (Z.ltb_spec N 0) as [?|_]; [lia|].
  destruct (draws (Z.to_nat N) (rng s)) as [z g1]; simpl in Lz.
  pose proof (draws_length (Z.to_nat N) g1) as Le.
  unfold bind, get, set_x, set_est1, set_eps, set_est2, put, lift, randn;
    cbn -[grad1 grad2 setitem draws].
  rewrite grad1_value; cbn -[grad1 grad2 setitem draws].
  rewrite (setitem_ok _ _ _ Hr1); cbn -[grad1 grad2 setitem draws].
  destruct (Z.ltb_spec N 0) as [?|_]; [lia|].
  destruct (draws (Z.to_nat N) g1) as [e g2]; simpl in Le.
  cbn -[grad1 grad2 setitem draws].
  rewrite grad2_value; cbn -[grad1 grad2 setitem draws].
  rewrite (setitem_ok _ _ _ Hr2); cbn -[grad1 grad2 setitem draws].
  unfold reparameterized_estimator, size.
  rewrite length_map, Lz, Le. reflexivity.
Qed.

(** A negative sample size makes the first [randn] of the trial raise. *)
Lemma trial_negative N r s : N < 0 -> trial N r s = Raise ValueError.
Proof.
  intros HN. unfold trial, bind at 1, randn.
  destruct (Z.ltb_spec N 0) as [_|?]; [reflexivity|lia].
Qed.

Lemma for_each_cons {A} (v : A) (l : list A) (body : A -> M unit) s :
  for_each (v :: l) body s
  = match body v s with
    | Ok (_, s') => for_each l body s'
    | Raise e => Raise e
    end.
Proof. simpl. unfold bind. destruct (body v s) as [[[] s']|e]; reflexivity. Qed.

(** The inner loop over the indices [length d1 .. length d1 + k - 1]:
    it overwrites exactly these entries of both buffers with the values
    of [k] trials in a row, whatever they held before. *)
Lemma inner_loop_ok N k :
  ((0 < k)%nat -> 0 <= N) ->
  forall s d1 t1 d2 t2,
    est1 s = d1 ++ t1 -> est2 s = d2 ++ t2 ->
    length t1 = k -> length t2 = k -> length d2 = length d1 ->
    exists x_ e_,
      for_each (seq (length d1) k) (trial N) s
      = let (vs, g') := trials_spec (theta s) (Z.to_nat N) k (rng s) in
        Ok (tt, Globals (theta s) x_ e_
                  (d1 ++ map fst vs) (d2 ++ map snd vs)
                  (means1 s) (vars1 s) (means2 s) (vars2 s) g').
Proof.
  induction k as [|k IH]; intros HN s d1 t1 d2 t2 E1 E2 L1 L2 Ld.
  - destruct t1; [|discriminate]. destruct t2; [|discriminate].
    exists (x s), (eps s). simpl. unfold ret.
    rewrite !app_nil_r in *. rewrite <- E1, <- E2. destruct s; reflexivity.
  - destruct t1 as [|u1 t1]; [discriminate|].
    destruct t2 as [|u2 t2]; [discriminate|].
    simpl in L1, L2.
    change (seq (length d1) (S k)) with (length d1 :: seq (S (length d1)) k).
    assert (0 <= N) as HN' by (apply HN; lia).
    rewrite for_each_cons, trial_ok;
      [|assumption|rewrite E1, length_app; simpl; lia
       |rewrite E2, length_app; simpl; lia].
    simpl trials_spec. unfold trial_spec.
    destruct (draws (Z.to_nat N) (rng s)) as [z g1].
    destruct (draws (Z.to_nat N) g1) as [e g2].
    cbv zeta.
    set (v1 := score_function_estimator _ _).
    set (v2 := reparameterized_estimator _ _).
    set (s1 := Globals _ _ _ _ _ _ _ _ _ _).
    destruct (IH (fun _ => HN') s1 (d1 ++ [v1]) t1 (d2 ++ [v2]) t2)
      as (x_ & e_ & E).
    + subst s1; simpl. rewrite E1.
      rewrite insert_app_r_alt by lia.
      rewrite Nat.sub_diag. simpl. rewrite <- app_assoc. reflexivity.
    + subst s1; simpl. rewrite E2.
      rewrite insert_app_r_alt by lia.
      rewrite Ld, Nat.sub_diag. simpl. rewrite <- app_assoc. reflexivity.
    + lia.
    + lia.
    + rewrite !length_app; simpl; lia.
    + exists x_, e_.
      rewrite length_app in E. simpl in E.
      rewrite Nat.add_1_r in E. rewrite E.
      subst s1; simpl.
      destruct (trials_spec (theta s) (Z.to_nat N) k g2) as [vs g'].
      simpl. rewrite <- !app_assoc. reflexivity.
Qed.

Lemma trials_spec_length theta_ N k g :
  length (fst (trials_spec theta_ N k g)) = k.
Proof.
  revert g; induction k as [|k IH]; intros g; simpl; [reflexivity|].
  destruct (trial_spec theta_ N g) as [v g1]. specialize (IH g1).
  destruct (trials_spec theta_ N k g1) as [vs g2]. simpl in *. congruence.
Qed.

(** The four assignments after the inner loop, for an index inside the
    four result arrays. *)
Lemma aggregate_ok i s :
  (i < length (means1 s))%nat -> (i < length (vars1 s))%nat ->
  (i < length (means2 s))%nat -> (i < length (vars2 s))%nat ->
  aggregate i s
  = Ok (tt, Globals (theta s) (x s) (eps s) (est1 s) (est2 s)
              (<[i := np_mean (est1 s)]> (means1 s))
              (<[i := np_var (est1 s)]> (vars1 s))
              (<[i := np_mean (est2 s)]> (means2 s))
              (<[i := np_var (est2 s)]> (vars2 s)) (rng s)).
Proof.
  intros L1 L2 L3 L4.
  unfold aggregate, bind, get, lift, put,
    set_means1, set_means2, set_vars1, set_vars2; cbn -[setitem].
  rewrite (setitem_ok _ _ _ L1); cbn -[setitem].
  rewrite (setitem_ok _ _ _ L3); cbn -[setitem].
  rewrite (setitem_ok _ _ _ L2); cbn -[setitem].
  rewrite (setitem_ok _ _ _ L4); cbn -[setitem].
  reflexivity.
Qed.

(** One pass through the body of the outer loop: the buffers end up
    holding the values of this sample size's trials, and entry [i] of
    each result array their mean or variance. *)
Lemma per_size_ok reps i N s :
  (0 < reps -> 0 <= N) ->
  length (est1 s) = Z.to_nat reps -> length (est2 s) = Z.to_nat reps ->
  (i < length (means1 s))%nat -> (i < length (vars1 s))%nat ->
  (i < length (means2 s))%nat -> (i < length (vars2 s))%nat ->
  exists x_ e_,
    per_size reps (i, N) s
    = let (vs, g') :=
        trials_spec (theta s) (Z.to_nat N) (Z.to_nat reps) (rng s) in
      Ok (tt, Globals (theta s) x_ e_ (map fst vs) (map snd vs)
                (<[i := np_mean (map fst vs)]> (means1 s))
                (<[i := np_var (map fst vs)]> (vars1 s))
                (<[i := np_mean (map snd vs)]> (means2 s))
                (<[i := np_var (map snd vs)]> (vars2 s)) g').
Proof.
  intros HN Le1 Le2 L1 L2 L3 L4.
  destruct (inner_loop_ok N (Z.to_nat reps)
              (fun Hk => HN ltac:(lia)) s [] (est1 s) [] (est2 s))
    as (x_ & e_ & E); try reflexivity; try assumption.
  exists x_, e_. unfold per_size, bind, range. cbn [fst snd].
  simpl length in E. rewrite E.
  destruct (trials_spec _ _ _ _) as [vs g']. simpl.
  rewrite aggregate_ok by assumption. reflexivity.
Qed.

(** The outer loop over the sample sizes [Ns], entered at index
    [length dm1]: it overwrites the next [length Ns] entries of the four
    result arrays with the summaries of [run_spec]. *)
Lemma outer_loop_ok reps Ns :
  (0 < reps -> Forall (fun N => 0 <= N) Ns) ->
  forall s dm1 tm1 dv1 tv1 dm2 tm2 dv2 tv2,
    means1 s = dm1 ++ tm1 -> vars1 s = dv1 ++ tv1 ->
    means2 s = dm2 ++ tm2 -> vars2 s = dv2 ++ tv2 ->
    length tm1 = length Ns -> length tv1 = length Ns ->
    length tm2 = length Ns -> length tv2 = length Ns ->
    length dv1 = length dm1 -> length dm2 = length dm1 ->
    length dv2 = length dm1 ->
    length (est1 s) = Z.to_nat reps -> length (est2 s) = Z.to_nat reps ->
    exists x_ e_ b1 b2,
      for_each (combine (seq (length dm1) (length Ns)) Ns) (per_size reps) s
      = let (res, g') := run_spec (theta s) Ns reps (rng s) in
        Ok (tt, Globals (theta s) x_ e_ b1 b2
                  (dm1 ++ column mean_estimator_A res)
                  (dv1 ++ column var_estimator_A res)
                  (dm2 ++ column mean_estimator_B res)
                  (dv2 ++ column var_estimator_B res) g').
Proof.
  induction Ns as [|N Ns IH];
    intros HN s dm1 tm1 dv1 tv1 dm2 tm2 dv2 tv2
      E1 E2 E3 E4 L1 L2 L3 L4 D2 D3 D4 B1 B2.
  - destruct tm1, tv1, tm2, tv2; try discriminate.
    exists (x s), (eps s), (est1 s), (est2 s). simpl. unfold ret.
    rewrite !app_nil_r in *. rewrite <- E1, <- E2, <- E3, <- E4.
    destruct s; reflexivity.
  - destruct tm1 as [|u1 tm1], tv1 as [|u2 tv1],
             tm2 as [|u3 tm2], tv2 as [|u4 tv2]; try discriminate.
    simpl in L1, L2, L3, L4.
    change (combine (seq (length dm1) (length (N :: Ns))) (N :: Ns))
      with ((length dm1, N)
              :: combine (seq (S (length dm1)) (length Ns)) Ns).
    rewrite for_each_cons.
    destruct (per_size_ok reps (length dm1) N s) as (x1 & e1 & E);
      try assumption;
      try (rewrite ?E1, ?E2, ?E3, ?E4, length_app; simpl; lia).
    { intros Hr. specialize (HN Hr). inversion HN; assumption. }
    rewrite E. simpl run_spec.
    pose proof (trials_spec_length (theta s) (Z.to_nat N) (Z.to_nat reps)
                  (rng s)) as Lvs.
    destruct (trials_spec _ _ _ _) as [vs g1]. simpl in Lvs.
    set (s1 := Globals _ _ _ _ _ _ _ _ _ _).
    destruct (IH (fun Hr => Forall_inv_tail (HN Hr)) s1
                (dm1 ++ [np_mean (map fst vs)]) tm1
                (dv1 ++ [np_var (map fst vs)]) tv1
                (dm2 ++ [np_mean (map snd vs)]) tm2
                (dv2 ++ [np_var (map snd vs)]) tv2)
      as (x_ & e_ & b1 & b2 & E');
      try (subst s1; simpl; rewrite ?length_app, ?length_map; simpl; lia).
    1-4: subst s1; simpl; rewrite ?E1, ?E2, ?E3, ?E4;
         rewrite insert_app_r_alt by lia;
         rewrite ?D2, ?D3, ?D4, Nat.sub_diag; simpl;
         rewrite <- app_assoc; reflexivity.
    exists x_, e_, b1, b2.
    rewrite length_app in E'. simpl in E'. rewrite Nat.add_1_r in E'.
    rewrite E'. subst s1; simpl.
    destruct (run_spec (theta s) Ns reps g1) as [res g'].
    unfold column; simpl. rewrite <- !app_assoc. reflexivity.
Qed.

Lemma np_zeros_ok n : 0 <= n -> np_zeros n = Ok (replicate (Z.to_nat n) fzero).
Proof.
  intros Hn. unfold np_zeros.
  destruct (Z.ltb_spec n 0); [lia|reflexivity].
Qed.

Lemma np_zeros_negative n : n < 0 -> np_zeros n = Raise ValueError.
Proof.
  intros Hn. unfold np_zeros.
  destruct (Z.ltb_spec n 0); [reflexivity|lia].
Qed.

(** Cell 7 on a configuration numpy accepts. *)
Lemma cell7_ok Ns reps s :
  0 <= reps -> (0 < reps -> Forall (fun N => 0 <= N) Ns) ->
  exists x_ e_ b1 b2,
    cell7 Ns reps s
    = let (res, g') := run_spec (theta s) Ns reps (rng s) in
      Ok (tt, Globals (theta s) x_ e_ b1 b2
                (column mean_estimator_A res) (column var_estimator_A res)
                (column mean_estimator_B res) (column var_estimator_B res)
                g').
Proof.
  intros Hr HN.
  unfold cell7, bind, lift, put,
    set_means1, set_means2, set_vars1, set_vars2, set_est1, set_est2.
  rewrite !np_zeros_ok by lia. cbn -[replicate for_each].
  rewrite Nat2Z.id.
  set (s1 := Globals _ _ _ _ _ _ _ _ _ _).
  set (z := replicate (length Ns) fzero).
  destruct (outer_loop_ok reps Ns HN s1 [] z [] z [] z [] z)
    as (x_ & e_ & b1 & b2 & E);
    try reflexivity;
    try (subst s1 z; simpl; apply length_replicate).
  exists x_, e_, b1, b2. simpl length in E. unfold enumerate.
  rewrite E. reflexivity.
Qed.

(** With at least one repetition, the outer loop raises when it reaches
    a negative sample size. *)
Lemma outer_loop_raises reps Ns :
  0 < reps -> Exists (fun N => N < 0) Ns ->
  forall i s,
    length (est1 s) = Z.to_nat reps -> length (est2 s) = Z.to_nat reps ->
    (i + length Ns <= length (means1 s))%nat ->
    (i + length Ns <= length (vars1 s))%nat ->
    (i + length Ns <= length (means2 s))%nat ->
    (i + length Ns <= length (vars2 s))%nat ->
    for_each (combine (seq i (length Ns)) Ns) (per_size reps) s
    = Raise ValueError.
Proof.
  intros Hr. induction Ns as [|N Ns IH]; intros Hex i s B1 B2 L1 L2 L3 L4.
  - inversion Hex.
  - simpl length in *.
    change (combine (seq i (S (length Ns))) (N :: Ns))
      with ((i, N) :: combine (seq (S i) (length Ns)) Ns).
    rewrite for_each_cons.
    destruct (Z_lt_dec N 0) as [Hneg|Hpos].
    + unfold per_size, bind, range. cbn [fst snd].
      destruct (Z.to_nat reps) as [|k] eqn:Ek; [lia|].
      change (seq 0 (S k)) with (0%nat :: seq 1 k).
      rewrite for_each_cons, trial_negative by assumption. reflexivity.
    + destruct (per_size_ok reps i N s) as (x1 & e1 & E);
        try assumption; try lia.
      rewrite E.
      pose proof (trials_spec_length (theta s) (Z.to_nat N) (Z.to_nat reps)
                    (rng s)) as Lvs.
      destruct (trials_spec _ _ _ _) as [vs g1]. simpl in Lvs.
      apply IH; simpl; rewrite ?length_map, ?length_insert; try lia.
      inversion Hex; subst; [contradiction|assumption].
Qed.

Lemma accepted_true Ns reps :
  accepted Ns reps = true <->
  0 <= reps /\ (0 < reps -> Forall (fun N => 0 <= N) Ns).
Proof.
  unfold accepted. rewrite andb_true_iff, orb_true_iff, forallb_forall.
  rewrite Z.leb_le, Z.eqb_eq, Forall_forall.
  setoid_rewrite Z.leb_le. setoid_rewrite <- list_elem_of_In.
  split.
  - intros [Hr [->|HN]]; split; auto; lia.
  - intros [Hr HN]. split; [assumption|].
    destruct (Z.eq_dec reps 0); [left; assumption|right; apply HN; lia].
Qed.

Lemma forallb_nonneg_false Ns :
  forallb (fun N => 0 <=? N) Ns = false <-> Exists (fun N => N < 0) Ns.
Proof.
  induction Ns as [|N Ns IH]; simpl.
  - split; [discriminate|inversion 1].
  - rewrite andb_false_iff, IH, Exists_cons, Z.leb_gt. reflexivity.
Qed.

Lemma accepted_false Ns reps :
  accepted Ns reps = false <->
  reps < 0 \/ (0 < reps /\ Exists (fun N => N < 0) Ns).
Proof.
  unfold accepted.
  rewrite andb_false_iff, orb_false_iff, forallb_nonneg_false.
  rewrite Z.leb_gt, Z.eqb_neq. split.
  - intros [?|[? ?]]; [left; assumption|].
    destruct (Z_lt_dec reps 0); [left; assumption|].
    right; split; [lia|assumption].
  - intros [?|[? ?]]; [left; assumption|right; split; [lia|assumption]].
Qed.

(** Cell 7 raises numpy's ValueError on every configuration that is not
    accepted. *)
Lemma cell7_raises Ns reps s :
  accepted Ns reps = false -> cell7 Ns reps s = Raise ValueError.
Proof.
  rewrite accepted_false. intros Hbad.
  unfold cell7, bind, lift, put,
    set_means1, set_means2, set_vars1, set_vars2, set_est1, set_est2.
  rewrite !(np_zeros_ok (Z.of_nat (length Ns))) by lia.
  cbn -[replicate for_each np_zeros].
  destruct Hbad as [Hneg|[Hpos Hex]].
  - rewrite np_zeros_negative by assumption. reflexivity.
  - rewrite !np_zeros_ok by lia. cbn -[replicate for_each].
    unfold enumerate. apply outer_loop_raises; try assumption; simpl;
      rewrite length_replicate; lia.
Qed.

End Loops.

(** * The claims on the experiment loop *)

Section Experiment.
Context {F G : Type} `{Arith F} `{Rng G F}.

Implicit Types (s t : @globals F G) (a : list F) (g : G).

Lemma run_spec_keys theta_ Ns reps g :
  map fst (fst (run_spec theta_ Ns reps g)) = Ns.
Proof.
  revert g; induction Ns as [|N Ns IH]; intros g; simpl; [reflexivity|].
  destruct (trials_spec _ _ _ _) as [vs g1]. specialize (IH g1).
  destruct (run_spec theta_ Ns reps g1) as [rest g2]. simpl in *.
  congruence.
Qed.

Lemma summaries_columns (res : list (Z * @summary F)) x_ e_ b1 b2 theta_ g :
  summaries (Globals theta_ x_ e_ b1 b2
               (column mean_estimator_A res) (column var_estimator_A res)
               (column mean_estimator_B res) (column var_estimator_B res) g)
  = map snd res.
Proof.
  unfold summaries, column; simpl.
  induction res as [|[N [mA vA mB vB]] res IH]; simpl; [reflexivity|].
  f_equal. apply IH.
Qed.

(** C3. For every array [samples] and every [theta], the lambda [grad1]
    returns the sum over the samples of [f(x_i) * (x_i - theta)], with
    [f(x) = |x|^(1/4)], divided by the number of samples, and leaves the
    globals as they were. *)
Theorem grad1_is_score_function_estimator s a :
  grad1 a s = Ok (score_function_estimator a (theta s), s).
Proof.
  unfold grad1, bind, get, ret. cbv beta.
  rewrite score_sum_fused.
  unfold score_function_estimator, size. reflexivity.
Qed.

(** C4. On every configuration with [reps >= 0] and sample sizes [>= 0],
    cell 7 returns normally, and the four arrays it leaves hold, for each
    sample size in order, the mean and variance of the two estimators
    over [reps] trials, each trial drawing [N] fresh normals shifted by
    [theta] for the score-function estimator and then [N] further fresh
    normals for the reparameterized one. *)
Theorem cell7_runs_experiment Ns reps s :
  0 <= reps -> Forall (fun N => 0 <= N) Ns ->
  exists s',
    cell7 Ns reps s = Ok (tt, s')
    /\ experiment_result Ns s' = fst (run_spec (theta s) Ns reps (rng s))
    /\ rng s' = snd (run_spec (theta s) Ns reps (rng s))
    /\ theta s' = theta s.
Proof.
  intros Hr HN.
  destruct (cell7_ok Ns reps s Hr (fun _ => HN)) as (x_ & e_ & b1 & b2 & E).
  pose proof (run_spec_keys (theta s) Ns reps (rng s)) as K.
  destruct (run_spec (theta s) Ns reps (rng s)) as [res g'].
  eexists. split; [exact E|]. simpl in K |- *.
  split; [|split; reflexivity].
  unfold experiment_result. rewrite summaries_columns.
  rewrite <- K at 1. apply zip_fst_snd.
Qed.

(** C7. Two runs of cell 7 on the same configuration that start from the
    same generator state and the same [theta] end with identical result
    arrays, or with the same exception, whatever the other module-level
    names held before. *)
Theorem cell7_same_seed_same_result Ns reps s1 s2 :
  theta s1 = theta s2 -> rng s1 = rng s2 ->
  outcome (cell7 Ns reps s1) = outcome (cell7 Ns reps s2).
Proof.
  intros Et Eg. destruct (accepted Ns reps) eqn:Acc.
  - apply accepted_true in Acc as [Hr HN].
    destruct (cell7_ok Ns reps s1 Hr HN) as (x1 & e1 & b1 & c1 & E1).
    destruct (cell7_ok Ns reps s2 Hr HN) as (x2 & e2 & b2 & c2 & E2).
    rewrite E1, E2, Et, Eg.
    destruct (run_spec (theta s2) Ns reps (rng s2)) as [res g'].
    reflexivity.
  - rewrite !cell7_raises by assumption. reflexivity.
Qed.

(** C1 (amended). Cell 7 validates nothing and knows no
    InvalidConfiguration error.  On a configuration whose dimensions numpy
    can allocate (the number of sample sizes, [reps] and every sample size
    at most [max_dim]), it raises exactly when [reps < 0] or when
    [reps > 0] and some sample size is negative, and then with numpy's
    ValueError; on every other such configuration (an empty list of sample
    sizes, [reps = 0], a sample size of 0) it returns normally.  Beyond
    these dimensions numpy itself may refuse the allocation, and nothing
    is stated. *)
Theorem cell7_raises_only_on_negative_dimensions Ns reps s :
  Z.of_nat (length Ns) <= max_dim ->
  reps <= max_dim ->
  Forall (fun N => N <= max_dim) Ns ->
  (accepted Ns reps = false
   <-> reps < 0 \/ (0 < reps /\ Exists (fun N => N < 0) Ns))
  /\ if accepted Ns reps
     then exists s', cell7 Ns reps s = Ok (tt, s')
     else cell7 Ns reps s = Raise ValueError.
Proof.
  intros _ _ _.
  split; [apply accepted_false|].
  destruct (accepted Ns reps) eqn:Acc.
  - apply accepted_true in Acc as [Hr HN].
    destruct (cell7_ok Ns reps s Hr HN) as (x_ & e_ & b1 & b2 & E).
    destruct (run_spec (theta s) Ns reps (rng s)) as [res g'].
    eexists; exact E.
  - apply cell7_raises, Acc.
Qed.

(** C9. [grad2] divides the sum of [g(theta + e)] over its argument by
    the size of the global [x], so it is the reparameterized estimator of
    its argument whenever [x] and the argument have the same length; and
    one pass through the inner loop's body leaves [x] and [eps] both of
    length [N] and stores in [est2[r]] the reparameterized estimator of
    the [eps] it drew. *)
Theorem grad2_divides_by_size_of_global_x N r s :
  0 <= N -> (r < length (est1 s))%nat -> (r < length (est2 s))%nat ->
  (forall a t,
      grad2 a t
      = Ok (fdiv (big_sum (fun e => g_derivative (fadd (theta t) e)) a)
                 (size (x t)), t))
  /\ (forall a t,
         length (x t) = length a ->
         grad2 a t = Ok (reparameterized_estimator a (theta t), t))
  /\ exists s',
      trial N r s = Ok (tt, s')
      /\ length (x s') = Z.to_nat N
      /\ length (eps s') = Z.to_nat N
      /\ est2 s' !! r = Some (reparameterized_estimator (eps s') (theta s')).
Proof.
  intros HN Hr1 Hr2.
  assert (forall a t,
             grad2 a t
             = Ok (fdiv (big_sum (fun e => g_derivative (fadd (theta t) e)) a)
                        (size (x t)), t)) as Hg.
  { intros a t. unfold grad2, bind, get, ret. cbv beta.
    rewrite (reparameterized_sum_fused (theta t) a). reflexivity. }
  split; [exact Hg|]. split.
  - intros a t L. rewrite Hg.
    unfold reparameterized_estimator, size. rewrite L. reflexivity.
  - rewrite trial_ok by assumption.
    pose proof (draws_length (Z.to_nat N) (rng s)) as Lz.
    destruct (draws (Z.to_nat N) (rng s)) as [z g1].
    pose proof (draws_length (Z.to_nat N) g1) as Le.
    destruct (draws (Z.to_nat N) g1) as [e g2].
    simpl in Lz, Le. eexists. split; [reflexivity|]. simpl.
    rewrite length_map. repeat split; try assumption.
    apply list_lookup_insert_eq, Hr2.
Qed.

(** C10. Whatever the buffers [est1] and [est2] hold when the body of
    the outer loop is entered for a sample size [N] (zeros, or the trial
    values of the previous sample size), when it is left all their
    [reps] entries are the values of the trials drawn for [N], and the
    mean and variance recorded at index [i] are those of these values. *)
Theorem buffers_hold_this_size_trials reps i N s :
  let vs := fst (trials_spec (theta s) (Z.to_nat N) (Z.to_nat reps) (rng s)) in
  0 <= N ->
  length (est1 s) = Z.to_nat reps -> length (est2 s) = Z.to_nat reps ->
  (i < length (means1 s))%nat -> (i < length (vars1 s))%nat ->
  (i < length (means2 s))%nat -> (i < length (vars2 s))%nat ->
  exists s',
    per_size reps (i, N) s = Ok (tt, s')
    /\ est1 s' = map fst vs /\ est2 s' = map snd vs
    /\ length vs = Z.to_nat reps
    /\ means1 s' !! i = Some (np_mean (map fst vs))
    /\ vars1 s' !! i = Some (np_var (map fst vs))
    /\ means2 s' !! i = Some (np_mean (map snd vs))
    /\ vars2 s' !! i = Some (np_var (map snd vs)).
Proof.
  intros vs HN B1 B2 L1 L2 L3 L4.
  destruct (per_size_ok reps i N s (fun _ => HN) B1 B2 L1 L2 L3 L4)
    as (x_ & e_ & E).
  pose proof (trials_spec_length (theta s) (Z.to_nat N) (Z.to_nat reps)
                (rng s)) as Lvs.
  subst vs. destruct (trials_spec _ _ _ _) as [vs g']. simpl in Lvs |- *.
  eexists. split; [exact E|]. simpl.
  repeat split; try assumption; apply list_lookup_insert_eq; assumption.
Qed.

End Experiment.

(** * Binary64 arithmetic

    The facts about IEEE arithmetic that the cells rely on at their
    boundary inputs, from the specification of the primitive operations. *)

Lemma valid_finite s m e :
  valid_binary (S754_finite s m e) = true ->
  Z.pos (digits2_pos m) <= 53 /\ e <= 971 /\ -1074 <= e /\
  (Z.pos (digits2_pos m) = 53 \/ e = -1074).
Proof.
  unfold SpecFloat.valid_binary, bounded, canonical_mantissa, fexp, emin,
    prec, emax.
  intros Hv. apply andb_prop in Hv as [Hc Hb].
  apply Z.eqb_eq in Hc. apply Z.leb_le in Hb. lia.
Qed.

Lemma div_eucl_exact a b : 0 < b -> Z.div_eucl (a * b) b = (a, 0).
Proof.
  intros Hb.
  generalize (Z.div_eucl_eq (a * b) b), (Z.mod_pos_bound (a * b) b Hb).
  unfold Z.modulo. destruct (Z.div_eucl (a * b) b) as [q r].
  intros E B. specialize (E ltac:(lia)).
  assert (q = a) by nia. subst q. f_equal. lia.
Qed.

(** Rounding a mantissa that already fits its exponent changes nothing. *)
Lemma binary_round_aux_canonical s m e :
  valid_binary (S754_finite s m e) = true ->
  binary_round_aux prec emax s (Z.pos m) e loc_Exact = S754_finite s m e.
Proof.
  intros Hv. pose proof (valid_finite _ _ _ Hv) as (HD & He & He' & Hc).
  unfold binary_round_aux, shr_fexp. cbn [Zdigits2 shr_record_of_loc].
  replace (fexp prec emax (Z.pos (digits2_pos m) + e) - e) with 0
    by (unfold fexp, emin, prec, emax; lia).
  cbn [shr shr_m loc_of_shr_record round_nearest_even Zdigits2
       shr_record_of_loc].
  replace (fexp prec emax (Z.pos (digits2_pos m) + e) - e) with 0
    by (unfold fexp, emin, prec, emax; lia).
  cbn [shr shr_m].
  replace (e <=? emax - prec) with true
    by (symmetry; apply Z.leb_le; unfold emax, prec; lia).
  reflexivity.
Qed.

(** Division by 1.0, whose mantissa is 2^52 at exponent -52, is exact. *)
Lemma SFdiv_one s m e :
  valid_binary (S754_finite s m e) = true ->
  SF64div (S754_finite s m e) (S754_finite false 4503599627370496 (-52))
  = S754_finite s m e.
Proof.
  intros Hv. pose proof (valid_finite _ _ _ Hv) as (HD & He & He' & Hc).
  unfold SF64div, SFdiv, SFdiv_core_binary.
  change (Zdigits2 (Z.pos 4503599627370496)) with 53.
  cbn [Zdigits2]. rewrite xorb_false_r.
  destruct (Z.eq_dec e (-1074)) as [->|Hne].
  - replace (fexp prec emax (Z.pos (digits2_pos m) + -1074 - (53 + -52)))
      with (-1074) by (unfold fexp, emin, prec, emax; lia).
    change (Z.min (-1074) (-1074 - -52)) with (-1074).
    change (-1074 - -52 - -1074) with 52.
    cbv iota.
    rewrite Z.shiftl_mul_pow2 by lia.
    change (2 ^ 52) with 4503599627370496.
    rewrite div_eucl_exact by lia.
    change (new_location 4503599627370496 0) with loc_Exact.
    apply binary_round_aux_canonical, Hv.
  - assert (Z.pos (digits2_pos m) = 53) as HD53 by lia.
    replace (fexp prec emax (Z.pos (digits2_pos m) + e - (53 + -52)))
      with (e - 1) by (unfold fexp, emin, prec, emax; lia).
    replace (Z.min (e - 1) (e - -52)) with (e - 1) by lia.
    replace (e - -52 - (e - 1)) with 53 by lia.
    cbv iota.
    rewrite Z.shiftl_mul_pow2 by lia.
    replace (Z.pos m * 2 ^ 53) with (Z.pos m~0 * 4503599627370496) by lia.
    rewrite div_eucl_exact by lia.
    change (new_location 4503599627370496 0) with loc_Exact.
    unfold binary_round_aux, shr_fexp.
    cbn [Zdigits2 shr_record_of_loc digits2_pos].
    rewrite Pos2Z.inj_succ, HD53.
    replace (fexp prec emax (Z.succ 53 + (e - 1)) - (e - 1)) with 1
      by (unfold fexp, emin, prec, emax; lia).
    cbn [shr SpecFloat.iter_pos shr_1 orb shr_m loc_of_shr_record
         round_nearest_even Zdigits2 shr_record_of_loc].
    rewrite HD53.
    replace (fexp prec emax (53 + (e - 1 + 1)) - (e - 1 + 1)) with 0
      by (unfold fexp, emin, prec, emax; lia).
    cbn [shr shr_m].
    replace (e - 1 + 1 <=? emax - prec) with true
      by (symmetry; apply Z.leb_le; unfold emax, prec; lia).
    f_equal. lia.
Qed.

Lemma div_one v : is_finite v = true -> PrimFloat.div v 1 = v.
Proof.
  intros Hf. apply Prim2SF_inj. rewrite FloatAxioms.div_spec.
  change (Prim2SF 1) with (S754_finite false 4503599627370496 (-52)).
  pose proof (Prim2SF_valid v) as Hv. unfold is_finite in Hf.
  destruct (Prim2SF v) as [s| | |s m e]; try discriminate.
  - destruct s; reflexivity.
  - apply SFdiv_one, Hv.
Qed.

Lemma sub_diag v : is_finite v = true -> PrimFloat.sub v v = 0%float.
Proof.
  intros Hf. apply Prim2SF_inj. rewrite FloatAxioms.sub_spec.
  unfold is_finite in Hf.
  destruct (Prim2SF v) as [s| | |s m e]; try discriminate.
  - destruct s; reflexivity.
  - unfold SF64sub, SFsub. rewrite Z.sub_diag. reflexivity.
Qed.

Lemma zero_add_nonzero v s m e :
  Prim2SF v = S754_finite s m e -> PrimFloat.add 0 v = v.
Proof.
  intros E. apply Prim2SF_inj. rewrite FloatAxioms.add_spec, E. reflexivity.
Qed.

Lemma zero_add_signed_zero z b :
  Prim2SF z = S754_zero b -> PrimFloat.add 0 z = 0%float.
Proof.
  intros E. apply Prim2SF_inj. rewrite FloatAxioms.add_spec, E.
  destruct b; reflexivity.
Qed.

Lemma mul_zero_r p :
  is_finite p = true -> exists b, Prim2SF (PrimFloat.mul p 0) = S754_zero b.
Proof.
  intros Hf. rewrite FloatAxioms.mul_spec. unfold is_finite in Hf.
  destruct (Prim2SF p) as [s| | |s m e]; try discriminate;
    eexists; reflexivity.
Qed.

Lemma digits2_pos_lower p : 2 ^ (Z.pos (digits2_pos p) - 1) <= Z.pos p.
Proof.
  induction p as [p IH|p IH|]; cbn [digits2_pos].
  - rewrite Pos2Z.inj_succ.
    replace (Z.succ (Z.pos (digits2_pos p)) - 1)
      with (Z.succ (Z.pos (digits2_pos p) - 1)) by lia.
    rewrite Z.pow_succ_r by lia. lia.
  - rewrite Pos2Z.inj_succ.
    replace (Z.succ (Z.pos (digits2_pos p)) - 1)
      with (Z.succ (Z.pos (digits2_pos p) - 1)) by lia.
    rewrite Z.pow_succ_r by lia. lia.
  - simpl. lia.
Qed.

Lemma digits2_pos_iter_xO p d :
  Z.pos (digits2_pos (Pos.iter xO p d)) = Z.pos (digits2_pos p) + Z.pos d.
Proof.
  induction d as [|d IH] using Pos.peano_ind.
  - simpl. lia.
  - rewrite Pos.iter_succ. cbn [digits2_pos]. lia.
Qed.

(** An array size below 2^53 converts to a positive finite number. *)
Lemma float_of_int_finite n :
  0 < n < 2 ^ 53 ->
  exists m e, Prim2SF (float_of_int n) = S754_finite false m e.
Proof.
  intros Hn. destruct n as [|p|p]; try lia.
  unfold float_of_int. rewrite of_uint63_spec, Uint63.of_Z_spec.
  rewrite Z.mod_small
    by (change Uint63.wB with 9223372036854775808;
        change (2 ^ 53) with 9007199254740992 in Hn; lia).
  cbn [binary_normalize]. unfold binary_round.
  pose proof (digits2_pos_lower p) as HD.
  assert (Z.pos (digits2_pos p) <= 53) as HD53.
  { destruct (Z_le_gt_dec (Z.pos (digits2_pos p)) 53) as [?|Hgt];
      [assumption|].
    assert (2 ^ 53 <= 2 ^ (Z.pos (digits2_pos p) - 1))
      by (apply Z.pow_le_mono_r; lia).
    lia. }
  replace (fexp prec emax (Z.pos (digits2_pos p) + 0))
    with (Z.pos (digits2_pos p) - 53)
    by (unfold fexp, emin, prec, emax; lia).
  unfold shl_align.
  destruct (Z.pos (digits2_pos p) - 53 - 0) as [|d|d] eqn:Ed.
  - exists p, 0. apply binary_round_aux_canonical.
    unfold SpecFloat.valid_binary, bounded, canonical_mantissa, fexp, emin,
      prec, emax.
    apply andb_true_intro. split; [apply Z.eqb_eq|apply Z.leb_le]; lia.
  - lia.
  - exists (Pos.iter xO p d), (Z.pos (digits2_pos p) - 53).
    apply binary_round_aux_canonical.
    unfold SpecFloat.valid_binary, bounded, canonical_mantissa, fexp, emin,
      prec, emax.
    rewrite digits2_pos_iter_xO.
    apply andb_true_intro. split; [apply Z.eqb_eq|apply Z.leb_le]; lia.
Qed.

Lemma zero_div_size n :
  0 < n < 2 ^ 53 -> PrimFloat.div 0 (float_of_int n) = 0%float.
Proof.
  intros Hn. destruct (float_of_int_finite n Hn) as (m & e & E).
  apply Prim2SF_inj. rewrite FloatAxioms.div_spec, E. reflexivity.
Qed.


(** * The claims on the aggregation and on boundary inputs *)

Section Aggregation.
Context {F : Type} `{Arith F}.

Hypothesis fadd_assoc : forall u v w : F, fadd (fadd u v) w = fadd u (fadd v w).
Hypothesis fadd_comm : forall u v : F, fadd u v = fadd v u.

Lemma fold_fadd_permutation (a b : list F) :
  Permutation a b -> forall acc, fold_left fadd a acc = fold_left fadd b acc.
Proof using fadd_assoc fadd_comm.
  induction 1 as [|v a b _ IH|u v a|a b c _ IH1 _ IH2]; intros acc; simpl.
  - reflexivity.
  - apply IH.
  - f_equal. rewrite !fadd_assoc. f_equal. apply fadd_comm.
  - rewrite IH1. apply IH2.
Qed.

Lemma zip_with_diag (f : F -> F -> F) (d : list F) :
  zip_with f d d = map (fun v => f v v) d.
Proof. induction d as [|v d IH]; simpl; [reflexivity|]. f_equal. apply IH. Qed.

(** C5 (amended). When addition is associative and commutative,
    as it is in exact arithmetic, [np.mean] and [np.var] give the same
    result for every reordering of the array of trial values. *)
Theorem mean_var_permutation_invariant (a b : list F) :
  Permutation a b -> np_mean a = np_mean b /\ np_var a = np_var b.
Proof using fadd_assoc fadd_comm.
  intros P.
  assert (np_mean a = np_mean b) as Em.
  { unfold np_mean, np_sum, size.
    rewrite (fold_fadd_permutation a b P), (Permutation_length P).
    reflexivity. }
  split; [exact Em|].
  unfold np_var, np_sum, size. rewrite Em, (Permutation_length P).
  f_equal. rewrite !zip_with_diag.
  apply fold_fadd_permutation.
  apply Permutation_map, Permutation_map, P.
Qed.

End Aggregation.

Section Boundary.
Variable pow : float -> float -> float.
Context {G : Type} `{Rng G float}.

Local Abbreviation A := (binary64 pow).

Implicit Types (s : @globals float G) (v : float).

(** The variance numpy reports for a single value. *)
Lemma np_var_singleton v :
  @np_var float A [v] = if is_finite v then 0%float else nan.
Proof.
  unfold np_var, np_mean, np_sum, size.
  cbn [fold_left zip_with map length fdiv fadd fsub fmul fzero of_int
       binary64].
  change (float_of_int (Z.of_nat 1)) with 1%float.
  unfold is_finite. destruct (Prim2SF v) as [b|b| |b m e] eqn:E.
  - assert (v = if b then (-0)%float else 0%float) as ->
      by (apply Prim2SF_inj; rewrite E; destruct b; reflexivity).
    destruct b; reflexivity.
  - assert (v = if b then neg_infinity else infinity) as ->
      by (apply Prim2SF_inj; rewrite E; destruct b; reflexivity).
    destruct b; reflexivity.
  - assert (v = nan) as -> by (apply Prim2SF_inj; rewrite E; reflexivity).
    reflexivity.
  - assert (is_finite v = true) as Hf
      by (unfold is_finite; rewrite E; reflexivity).
    rewrite (zero_add_nonzero _ _ _ _ E), (div_one _ Hf), (sub_diag _ Hf).
    reflexivity.
Qed.

(** C6 (amended). With one sample size 1 and one repetition,
    cell 7 returns normally, and the variance it reports for an estimator
    is exactly 0.0 when that estimator's single trial value is finite,
    and NaN when it is not. *)
Theorem boundary_run_variances s :
  let vs := fst (@trial_spec float G A _ (theta s) 1 (rng s)) in
  exists s',
    @cell7 float G A _ [1] 1 s = Ok (tt, s')
    /\ means1 s' = [@np_mean float A [fst vs]]
    /\ means2 s' = [@np_mean float A [snd vs]]
    /\ vars1 s' = [if is_finite (fst vs) then 0%float else nan]
    /\ vars2 s' = [if is_finite (snd vs) then 0%float else nan].
Proof.
  intros vs.
  destruct (@cell7_ok float G A _ [1] 1 s) as (x_ & e_ & b1 & b2 & E);
    [lia|intros _; repeat constructor; lia|].
  rewrite E. subst vs. simpl run_spec.
  change (Z.to_nat 1) with 1%nat. simpl trials_spec.
  destruct (trial_spec (theta s) 1 (rng s)) as [[v1 v2] g1].
  eexists. split; [reflexivity|].
  unfold column; simpl. rewrite <- !np_var_singleton. repeat split.
Qed.

(** Every term [f(theta) * (theta - theta)] is a zero, and zeros add up
    to +0.0. *)
Lemma big_sum_at_theta (n : nat) (theta_ : float) :
  is_finite theta_ = true ->
  is_finite (pow (abs theta_) 0.25) = true ->
  @big_sum float A float
    (fun v => @fmul float A (@f_integrand float A v) (@fsub float A v theta_))
    (replicate n theta_)
  = 0%float.
Proof.
  intros Ht Hp. unfold big_sum.
  change (@fzero float A) with 0%float.
  induction n as [|n IH]; simpl; [reflexivity|].
  rewrite (sub_diag _ Ht).
  destruct (mul_zero_r _ Hp) as [b Eb].
  rewrite (zero_add_signed_zero _ b Eb). exact IH.
Qed.

(** C8 (amended). When all [n >= 1] samples coincide with a
    finite [theta], [grad1] returns exactly 0.0, not NaN. *)
Theorem grad1_at_theta_returns_zero (n : nat) s :
  is_finite (theta s) = true ->
  is_finite (pow (abs (theta s)) 0.25) = true ->
  (0 < n)%nat -> Z.of_nat n < 2 ^ 53 ->
  @grad1 float G A (replicate n (theta s)) s = Ok (0%float, s).
Proof.
  intros Ht Hp Hn Hn'. rewrite grad1_value. do 2 f_equal.
  unfold score_function_estimator.
  rewrite (big_sum_at_theta n (theta s) Ht Hp), length_replicate.
  apply zero_div_size. lia.
Qed.

End Boundary.

(** * The cells on concrete arrays *)

Section Runs.
Import Concrete.
Local Open Scope float_scope.

(** C1 (counterexample): with an empty list of sample sizes, with zero
    repetitions, and with a sample size of zero, cell 7 raises nothing and
    returns its (empty, or NaN) result arrays. *)
Lemma cell7_returns_on_invalid_configurations :
  outcome (cell7_64 [] 100 (state 0.1 [] [])) = Ok ([], [], [], [])
  /\ outcome (cell7_64 [10; 100]%Z 0 (state 0.1 [] []))
     = Ok ([nan; nan], [nan; nan], [nan; nan], [nan; nan])
  /\ outcome (cell7_64 [0]%Z 1 (state 0.1 [] []))
     = Ok ([nan], [nan], [nan], [nan]).
Proof. repeat split; vm_compute; reflexivity. Qed.

(** C2 (defect of [grad2]): with [theta = 0.1] and the 1000-element [x]
    that cell 5 leaves behind, [grad2] of the one-element array [[0.9]]
    is [g(1.0) / 1000 = 0.00025], where the reparameterized estimator of
    that array is [g(1.0) / 1 = 0.25]. *)
Theorem grad2_divides_by_a_stale_size :
  let s := state 0.1 (replicate 1000 0) [] in
  grad2_64 [0.9] s = Ok (0.25 / 1000, s)
  /\ @reparameterized_estimator float A64 [0.9] 0.1 = 0.25
  /\ PrimFloat.eqb (0.25 / 1000) 0.25 = false.
Proof. repeat split; vm_compute; reflexivity. Qed.

(** C5 (counterexample): in binary64 the mean and the variance of
    [0.1, 0.7, 0.3] differ from those of the reordering [0.3, 0.7, 0.1]. *)
Lemma mean_var_depend_on_order :
  Permutation [0.1; 0.7; 0.3] [0.3; 0.7; 0.1]
  /\ np_mean64 [0.1; 0.7; 0.3] = 0.36666666666666664
  /\ np_mean64 [0.3; 0.7; 0.1] = 0.3666666666666667
  /\ PrimFloat.eqb (np_mean64 [0.1; 0.7; 0.3]) (np_mean64 [0.3; 0.7; 0.1])
     = false
  /\ PrimFloat.eqb (np_var64 [0.1; 0.7; 0.3]) (np_var64 [0.3; 0.7; 0.1])
     = false.
Proof.
  split; [|repeat split; vm_compute; reflexivity].
  change [0.3; 0.7; 0.1] with (rev [0.1; 0.7; 0.3]). apply Permutation_rev.
Qed.

(** C6 (counterexample): when the draw for the reparameterized estimator
    is [-0.1] and [theta = 0.1], the single trial value is [0/0 = NaN],
    and so is the variance cell 7 reports for it. *)
Lemma boundary_run_reports_nan_variance :
  outcome (cell7_64 [1]%Z 1 (state 0.1 [] [0.9; -0.1]))
  = Ok ([0.9], [0], [nan], [nan]).
Proof. vm_compute. reflexivity. Qed.

(** C8 (counterexample): on three samples equal to [theta = 0.1],
    [grad1] returns 0.0, which is not NaN. *)
Lemma grad1_at_theta_is_not_nan :
  grad1_64 [0.1; 0.1; 0.1] (state 0.1 [] []) = Ok (0, state 0.1 [] [])
  /\ is_nan 0 = false.
Proof. split; vm_compute; reflexivity. Qed.

End Runs.

(** * The theorems at concrete inputs *)

Section Witnesses.
Import Concrete.
Local Open Scope float_scope.

(** Cell 7 on two sample sizes and two repetitions, from six draws. *)
Lemma cell7_runs_experiment_witness :
  let s := state 0.1 [] [0.9; 15.9; 0.4; -1.1; 0.5; 0.2; 0.9; 0.9; 0.3; 0.1] in
  (0 <= 2)%Z /\ Forall (fun N => 0 <= N)%Z [2; 1]%Z
  /\ exists s',
      cell7_64 [2; 1]%Z 2 s = Ok (tt, s')
      /\ experiment_result [2; 1]%Z s'
         = fst (@run_spec float (list float) A64 tape64
                  (theta s) [2; 1]%Z 2 (rng s))
      /\ rng s' = snd (@run_spec float (list float) A64 tape64
                         (theta s) [2; 1]%Z 2 (rng s))
      /\ theta s' = theta s.
Proof.
  intros s.
  assert (0 <= 2)%Z as Hr by lia.
  assert (Forall (fun N => 0 <= N)%Z [2; 1]%Z) as HN
    by (repeat constructor; lia).
  split; [exact Hr|]. split; [exact HN|].
  exact (@cell7_runs_experiment float (list float) A64 tape64
           [2; 1]%Z 2 s Hr HN).
Defined.

(** Exact real numbers: addition is associative and commutative. *)
Lemma mean_var_permutation_invariant_witness :
  let one := Rdefinitions.IZR 1 in
  let two := Rdefinitions.IZR 2 in
  let three := Rdefinitions.IZR 3 in
  Permutation [one; two; three] [three; one; two]
  /\ @np_mean _ reals [one; two; three] = @np_mean _ reals [three; one; two]
  /\ @np_var _ reals [one; two; three] = @np_var _ reals [three; one; two].
Proof.
  intros one two three.
  assert (Permutation [one; two; three] [three; one; two]) as P
    by exact (Permutation_sym (Permutation_cons_append [one; two] three)).
  split; [exact P|].
  exact (@mean_var_permutation_invariant _ reals
           Raxioms.Rplus_assoc Raxioms.Rplus_comm _ _ P).
Defined.

(** The same seed and [theta], different leftovers in the other names. *)
Lemma cell7_same_seed_same_result_witness :
  let s1 := state 0.1 [] [0.9; -0.1; 0.4] in
  let s2 := Globals 0.1 [5; 6] [7] [1; 2; 3] [4] [8] [9] [10] [11]
              [0.9; -0.1; 0.4] in
  theta s1 = theta s2 /\ rng s1 = rng s2
  /\ outcome (cell7_64 [1]%Z 1 s1) = outcome (cell7_64 [1]%Z 1 s2).
Proof.
  intros s1 s2. split; [reflexivity|]. split; [reflexivity|].
  exact (@cell7_same_seed_same_result float (list float) A64 tape64
           [1]%Z 1 s1 s2 eq_refl eq_refl).
Defined.

(** Three samples equal to [theta = 0.1]. *)
Lemma grad1_at_theta_returns_zero_witness :
  let s := state 0.1 [] [] in
  is_finite (theta s) = true
  /\ is_finite (pow_sqrt (abs (theta s)) 0.25) = true
  /\ grad1_64 (replicate 3 (theta s)) s = Ok (0, s).
Proof.
  intros s. split; [reflexivity|]. split; [reflexivity|].
  exact (@grad1_at_theta_returns_zero pow_sqrt (list float) 3 s
           eq_refl eq_refl (Nat.lt_0_succ 2) eq_refl).
Defined.

(** One trial at sample size 2 into slot 0 of two-element buffers. *)
Lemma grad2_divides_by_size_of_global_x_witness :
  let s := Globals 0.1 [] [] [0; 0] [0; 0] [] [] [] []
             [0.9; 15.9; 0.4; -1.1] in
  exists s',
    @trial float (list float) A64 tape64 2 0 s = Ok (tt, s')
    /\ length (x s') = 2%nat /\ length (eps s') = 2%nat
    /\ est2 s' !! 0%nat
       = Some (@reparameterized_estimator float A64 (eps s') (theta s')).
Proof.
  intros s.
  assert (0 <= 2)%Z as HN by lia.
  assert (0 < length (est1 s))%nat as H1 by (simpl; lia).
  assert (0 < length (est2 s))%nat as H2 by (simpl; lia).
  exact (proj2 (proj2 (@grad2_divides_by_size_of_global_x
                         float (list float) A64 tape64 2 0%nat s HN H1 H2))).
Defined.

(** Sample size 1, two repetitions, into buffers that still hold the
    values 7 and 8 of an earlier sample size. *)
Lemma buffers_hold_this_size_trials_witness :
  let s := Globals 0.1 [] [] [7; 8] [7; 8] [0] [0] [0] [0]
             [0.9; 0.4; 15.9; -1.1] in
  exists s',
    @per_size float (list float) A64 tape64 2 (0%nat, 1%Z) s = Ok (tt, s')
    /\ est1 s' = [0.9; 31.8]
    /\ length (est2 s') = 2%nat.
Proof.
  intros s.
  assert (0 <= 1)%Z as HN by lia.
  assert (0 < 1)%nat as Hi by lia.
  destruct (@buffers_hold_this_size_trials float (list float) A64 tape64
              2 0%nat 1%Z s HN eq_refl eq_refl Hi Hi Hi Hi)
    as (s' & E & E1 & E2 & L & _).
  exists s'. split; [exact E|]. split; [rewrite E1; reflexivity|].
  rewrite E2, length_map. exact L.
Defined.

(** A hundred repetitions over no sample size at all: accepted, and cell
    7 returns; one repetition at a negative sample size: ValueError. *)
Lemma cell7_raises_only_on_negative_dimensions_witness :
  let s := state 0.1 [] [] in
  (Z.of_nat (length (@nil Z)) <= max_dim)%Z /\ (100 <= max_dim)%Z
  /\ (exists s', cell7_64 [] 100 s = Ok (tt, s'))
  /\ cell7_64 [-1]%Z 1 s = Raise ValueError.
Proof.
  intros s.
  assert (Z.of_nat (length (@nil Z)) <= max_dim)%Z as H0
    by (vm_compute; discriminate).
  assert (100 <= max_dim)%Z as H1 by (vm_compute; discriminate).
  assert (Z.of_nat (length [-1]%Z) <= max_dim)%Z as H2
    by (vm_compute; discriminate).
  assert (1 <= max_dim)%Z as H3 by (vm_compute; discriminate).
  assert (Forall (fun N => N <= max_dim)%Z [-1]%Z) as H4
    by (repeat constructor; vm_compute; discriminate).
  split; [exact H0|]. split; [exact H1|]. split.
  - exact (proj2 (@cell7_raises_only_on_negative_dimensions
                    float (list float) A64 tape64 [] 100 s
                    H0 H1 (List.Forall_nil _))).
  - exact (proj2 (@cell7_raises_only_on_negative_dimensions
                    float (list float) A64 tape64 [-1]%Z 1 s H2 H3 H4)).
Defined.

End Witnesses.

(** * Further properties of the cells *)

Section Cells.
Context {F G : Type} `{Arith F} `{Rng G F}.

Implicit Types (s t : @globals F G) (a : list F) (g : G).

(** ** Cell 5 *)

Lemma cell5_ok N (theta0 : F) s :
  0 <= N ->
  cell5 N theta0 s
  = let (e, g') := draws (Z.to_nat N) (rng s) in
    let x_ := map (fun v => fadd theta0 v) e in
    Ok ((score_function_estimator x_ theta0,
         reparameterized_estimator e theta0),
        Globals theta0 x_ e (est1 s) (est2 s)
          (means1 s) (vars1 s) (means2 s) (vars2 s) g').
Proof.
  intros HN.
  unfold cell5, bind, set_theta, set_eps, set_x, put, get, randn, ret.
  cbn -[grad1 grad2 draws].
  destruct (Z.ltb_spec N 0) as [?|_]; [lia|].
  destruct (draws (Z.to_nat N) (rng s)) as [e g'].
  cbn -[grad1 grad2 draws].
  rewrite grad1_value. cbn -[grad1 grad2 draws].
  rewrite grad2_value. cbn -[grad1 grad2 draws].
  unfold reparameterized_estimator, size. rewrite length_map. reflexivity.
Qed.

(** X1. Cell 5 draws one array [eps] of [N] normals, sets [x = theta + eps]
    element by element, and prints the score-function estimator of [x] and
    the reparameterized estimator of that same [eps]: both printed values
    come from one shared noise array, and [x] has the length of [eps], so
    the division by [x.size] in [grad2] is the division by [N].  A negative
    [N] makes [randn] raise. *)
Theorem cell5_prints_both_estimators_of_one_noise N (theta0 : F) s :
  cell5 N theta0 s
  = if N <? 0 then Raise ValueError
    else
      let (e, g') := draws (Z.to_nat N) (rng s) in
      let x_ := map (fun v => fadd theta0 v) e in
      Ok ((score_function_estimator x_ theta0,
           reparameterized_estimator e theta0),
          Globals theta0 x_ e (est1 s) (est2 s)
            (means1 s) (vars1 s) (means2 s) (vars2 s) g').
Proof.
  destruct (Z.ltb_spec N 0) as [Hneg|Hpos].
  - unfold cell5, bind, set_theta, put, randn. cbn -[draws].
    destruct (Z.ltb_spec N 0) as [_|?]; [reflexivity|lia].
  - apply cell5_ok, Hpos.
Qed.

(** ** The generator state after the loops *)

Lemma trial_spec_rng (theta_ : F) N g :
  snd (trial_spec theta_ N g) = snd (draws (N + N) g).
Proof.
  rewrite trial_spec_fresh_draws. destruct (draws (N + N) g); reflexivity.
Qed.

Lemma trials_spec_rng (theta_ : F) N k g :
  snd (trials_spec theta_ N k g) = snd (draws (k * (N + N)) g).
Proof.
  revert g; induction k as [|k IH]; intros g; simpl; [reflexivity|].
  rewrite draws_add. pose proof (trial_spec_rng theta_ N g) as E.
  destruct (trial_spec theta_ N g) as [v g1].
  destruct (draws (N + N) g) as [w g1']. simpl in E. subst g1'.
  specialize (IH g1).
  destruct (trials_spec theta_ N k g1) as [vs g2].
  destruct (draws (k * (N + N)) g1) as [w' g2']. simpl in *. exact IH.
Qed.

Lemma foldr_add_nonneg Ns :
  Forall (fun N => 0 <= N) Ns -> 0 <= foldr Z.add 0 Ns.
Proof. induction 1; simpl; lia. Qed.

Lemma run_spec_rng (theta_ : F) Ns reps g :
  0 <= reps -> Forall (fun N => 0 <= N) Ns ->
  snd (run_spec theta_ Ns reps g)
  = snd (draws (Z.to_nat (draws_used Ns reps)) g).
Proof.
  intros Hr HN. revert g. unfold draws_used.
  induction HN as [|N Ns HN0 HNs IH]; intros g; simpl.
  { rewrite Z.mul_0_r. reflexivity. }
  pose proof (foldr_add_nonneg Ns HNs) as Hs.
  replace (Z.to_nat (2 * reps * (N + foldr Z.add 0 Ns)))
    with (Z.to_nat reps * (Z.to_nat N + Z.to_nat N)
          + Z.to_nat (2 * reps * foldr Z.add 0 Ns)%Z)%nat by nia.
  rewrite draws_add.
  pose proof (trials_spec_rng theta_ (Z.to_nat N) (Z.to_nat reps) g) as E.
  destruct (trials_spec theta_ (Z.to_nat N) (Z.to_nat reps) g) as [vs g1].
  destruct (draws (Z.to_nat reps * (Z.to_nat N + Z.to_nat N)) g)
    as [w g1'].
  simpl in E. subst g1'. specialize (IH g1).
  destruct (run_spec theta_ Ns reps g1) as [rest g2].
  destruct (draws (Z.to_nat (2 * reps * foldr Z.add 0 Ns)) g1) as [w' g2'].
  simpl in *. exact IH.
Qed.

(** X2. A run of cell 7 takes exactly [2 * reps * sum(Ns)] draws from the
    generator: it leaves the generator in the state that this many single
    draws lead to. *)
Theorem cell7_uses_2_reps_sum_Ns_draws Ns reps s :
  0 <= reps -> Forall (fun N => 0 <= N) Ns ->
  exists s',
    cell7 Ns reps s = Ok (tt, s')
    /\ rng s' = snd (draws (Z.to_nat (draws_used Ns reps)) (rng s)).
Proof.
  intros Hr HN.
  destruct (cell7_ok Ns reps s Hr (fun _ => HN)) as (x_ & e_ & b1 & b2 & E).
  pose proof (run_spec_rng (theta s) Ns reps (rng s) Hr HN) as R.
  destruct (run_spec (theta s) Ns reps (rng s)) as [res g'].
  eexists. split; [exact E|]. exact R.
Qed.

(** ** What the loops keep *)

Lemma setitem_length a k v a' :
  setitem a k v = Ok a' -> length a' = length a.
Proof.
  unfold setitem. destruct (k <? length a)%nat; [|discriminate].
  intros [= <-]. apply length_insert.
Qed.

Lemma for_each_preserves {A} (I : @globals F G -> Prop) (l : list A)
    (body : A -> M unit) :
  (forall v s s', I s -> body v s = Ok (tt, s') -> I s') ->
  forall s s', I s -> for_each l body s = Ok (tt, s') -> I s'.
Proof.
  intros Hb. induction l as [|v l IH]; intros s s' Hs E.
  - simpl in E. unfold ret in E. injection E as <-. exact Hs.
  - rewrite for_each_cons in E.
    destruct (body v s) as [[[] s1]|e] eqn:Eb; [|discriminate].
    eapply IH; [eapply Hb; eassumption|exact E].
Qed.

(** A returning trial leaves [x] and [eps] of the same length, and the
    buffers and result arrays with the lengths they had. *)
Lemma trial_keeps N r s s' :
  trial N r s = Ok (tt, s') ->
  length (x s') = length (eps s')
  /\ length (est1 s') = length (est1 s)
  /\ length (est2 s') = length (est2 s)
  /\ theta s' = theta s.
Proof.
  unfold trial, bind at 1, randn.
  destruct (Z.ltb_spec N 0) as [?|HN]; [discriminate|].
  pose proof (draws_length (Z.to_nat N) (rng s)) as Lz.
  destruct (draws (Z.to_nat N) (rng s)) as [z g1]; simpl in Lz.
  pose proof (draws_length (Z.to_nat N) g1) as Le.
  unfold bind, get, set_x, set_est1, set_eps, set_est2, put, lift, randn;
    cbn -[grad1 grad2 setitem draws].
  rewrite grad1_value; cbn -[grad1 grad2 setitem draws].
  destruct (setitem (est1 s) r _) as [b1|] eqn:S1; [|discriminate].
  cbn -[grad1 grad2 setitem draws].
  destruct (Z.ltb_spec N 0) as [?|_]; [lia|].
  destruct (draws (Z.to_nat N) g1) as [e g2]; simpl in Le.
  cbn -[grad1 grad2 setitem draws].
  rewrite grad2_value; cbn -[grad1 grad2 setitem draws].
  destruct (setitem (est2 s) r _) as [b2|] eqn:S2; [|discriminate].
  cbn -[grad1 grad2 setitem draws].
  intros [= <-]. simpl. rewrite length_map.
  apply setitem_length in S1, S2. repeat split; congruence.
Qed.

(** A returning [aggregate] touches only the four result arrays. *)
Lemma aggregate_keeps i s s' :
  aggregate i s = Ok (tt, s') ->
  x s' = x s /\ eps s' = eps s /\ est1 s' = est1 s /\ est2 s' = est2 s
  /\ theta s' = theta s.
Proof.
  unfold aggregate, bind, get, lift, put,
    set_means1, set_means2, set_vars1, set_vars2; cbn -[setitem].
  destruct (setitem (means1 s) i _); [|discriminate]. cbn -[setitem].
  destruct (setitem (means2 s) i _); [|discriminate]. cbn -[setitem].
  destruct (setitem (vars1 s) i _); [|discriminate]. cbn -[setitem].
  destruct (setitem (vars2 s) i _); [|discriminate]. cbn -[setitem].
  intros [= <-]. repeat split.
Qed.

(** The state in which cell 7 enters its outer loop. *)
Lemma cell7_enters_loop Ns reps s :
  0 <= reps ->
  cell7 Ns reps s
  = for_each (enumerate Ns) (per_size reps)
      (Globals (theta s) (x s) (eps s)
         (replicate (Z.to_nat reps) fzero) (replicate (Z.to_nat reps) fzero)
         (replicate (length Ns) fzero) (replicate (length Ns) fzero)
         (replicate (length Ns) fzero) (replicate (length Ns) fzero)
         (rng s)).
Proof.
  intros Hr.
  unfold cell7, bind, lift, put,
    set_means1, set_means2, set_vars1, set_vars2, set_est1, set_est2.
  rewrite !np_zeros_ok by lia. cbn -[replicate for_each].
  rewrite Nat2Z.id. reflexivity.
Qed.

(** An invariant of the globals that trials keep and that does not depend
    on the result arrays is an invariant of the outer loop. *)
Lemma outer_loop_preserves (I : @globals F G -> Prop) reps
    (l : list (nat * Z)) :
  (forall N r s s', I s -> trial N r s = Ok (tt, s') -> I s') ->
  (forall i s s', I s -> aggregate i s = Ok (tt, s') -> I s') ->
  forall s s', I s -> for_each l (per_size reps) s = Ok (tt, s') -> I s'.
Proof.
  intros Ht Ha. apply for_each_preserves. intros [i N] s s' Hs E.
  unfold per_size, bind in E. cbn [fst snd] in E.
  destruct (for_each (range reps) (trial N) s) as [[[] s1]|e] eqn:El;
    [|discriminate].
  eapply Ha; [|exact E].
  eapply (for_each_preserves I); [|exact Hs|exact El].
  intros r t t'. apply Ht.
Qed.

(** X3. Cell 7 leaves its arrays with the shapes it allocated: one entry
    per sample size in each of the four result arrays, and [reps] entries
    in each of the two buffers. *)
Theorem cell7_array_shapes Ns reps s :
  0 <= reps -> Forall (fun N => 0 <= N) Ns ->
  exists s',
    cell7 Ns reps s = Ok (tt, s')
    /\ length (means1 s') = length Ns /\ length (vars1 s') = length Ns
    /\ length (means2 s') = length Ns /\ length (vars2 s') = length Ns
    /\ length (est1 s') = Z.to_nat reps /\ length (est2 s') = Z.to_nat reps.
Proof.
  intros Hr HN.
  destruct (cell7_ok Ns reps s Hr (fun _ => HN)) as (x_ & e_ & b1 & b2 & E).
  pose proof (run_spec_keys (theta s) Ns reps (rng s)) as K.
  destruct (run_spec (theta s) Ns reps (rng s)) as [res g'].
  simpl in K. apply (f_equal length) in K. rewrite length_map in K.
  eexists. split; [exact E|]. simpl. unfold column. rewrite !length_map.
  repeat (split; [exact K|]).
  rewrite cell7_enters_loop in E by assumption.
  apply (outer_loop_preserves
           (fun t => length (est1 t) = Z.to_nat reps
                     /\ length (est2 t) = Z.to_nat reps)) in E.
  - exact E.
  - intros N r t t' [L1 L2] Et.
    apply trial_keeps in Et as (_ & E1 & E2 & _). split; congruence.
  - intros i t t' [L1 L2] Ea.
    apply aggregate_keeps in Ea as (_ & _ & E1 & E2 & _). split; congruence.
  - simpl. rewrite !length_replicate. split; reflexivity.
Qed.

(** X4. Cell 7 keeps [x] and [eps] of equal length: when they are on
    entry (as cell 5 leaves them), they are on exit, so [grad2], which
    divides by the size of [x], is the reparameterized estimator of [eps]
    before, during and after the loop. *)
Theorem cell7_keeps_x_and_eps_aligned Ns reps s :
  0 <= reps -> Forall (fun N => 0 <= N) Ns ->
  length (x s) = length (eps s) ->
  exists s',
    cell7 Ns reps s = Ok (tt, s')
    /\ length (x s') = length (eps s')
    /\ grad2 (eps s') s'
       = Ok (reparameterized_estimator (eps s') (theta s'), s').
Proof.
  intros Hr HN Hx.
  destruct (cell7_ok Ns reps s Hr (fun _ => HN)) as (x_ & e_ & b1 & b2 & E).
  destruct (run_spec (theta s) Ns reps (rng s)) as [res g'].
  eexists. split; [exact E|].
  assert (length x_ = length e_) as L.
  { rewrite cell7_enters_loop in E by assumption.
    apply (outer_loop_preserves
             (fun t => length (x t) = length (eps t))) in E.
    - exact E.
    - intros N r t t' _ Et. apply trial_keeps in Et as (L & _). exact L.
    - intros i t t' L Ea.
      apply aggregate_keeps in Ea as (E1 & E2 & _). congruence.
    - exact Hx. }
  split; [exact L|]. rewrite grad2_value. simpl.
  unfold reparameterized_estimator, size. rewrite L. reflexivity.
Qed.

(** ** The cells in sequence *)

(** X5. The notebook run top to bottom: cell 7 performs the experiment at
    the [theta] that cell 5 assigned, from the generator state that cell
    5's [N] draws left, and what cell 5 printed is unaffected. *)
Theorem notebook_runs_experiment_after_cell5 N (theta0 : F) Ns reps s :
  0 <= N -> 0 <= reps -> Forall (fun M => 0 <= M) Ns ->
  let e := fst (draws (Z.to_nat N) (rng s)) in
  let g1 := snd (draws (Z.to_nat N) (rng s)) in
  exists s',
    notebook N theta0 Ns reps s
    = Ok ((score_function_estimator (map (fun v => fadd theta0 v) e) theta0,
           reparameterized_estimator e theta0), s')
    /\ experiment_result Ns s' = fst (run_spec theta0 Ns reps g1)
    /\ theta s' = theta0.
Proof.
  intros HN Hr HNs e g1. subst e g1.
  unfold notebook, bind at 1. rewrite cell5_ok by assumption.
  destruct (draws (Z.to_nat N) (rng s)) as [e g1]. cbv zeta.
  set (s1 := Globals _ _ _ _ _ _ _ _ _ _).
  destruct (cell7_ok Ns reps s1 Hr (fun _ => HNs))
    as (x_ & e_ & b1 & b2 & E).
  unfold bind, ret. rewrite E. subst s1. cbn [theta rng fst snd].
  pose proof (run_spec_keys theta0 Ns reps g1) as K.
  destruct (run_spec theta0 Ns reps g1) as [res g'].
  eexists. split; [reflexivity|]. split; [|reflexivity].
  unfold experiment_result. rewrite summaries_columns.
  simpl in K. rewrite <- K at 1. apply zip_fst_snd.
Qed.

(** X6. Running cell 7 a second time without reseeding repeats nothing:
    the second run is the experiment started from the generator state
    that the first run's [2 * reps * sum(Ns)] draws left. *)
Theorem cell7_rerun_continues_the_stream Ns reps s :
  0 <= reps -> Forall (fun N => 0 <= N) Ns ->
  let g1 := snd (draws (Z.to_nat (draws_used Ns reps)) (rng s)) in
  exists s1 s2,
    cell7 Ns reps s = Ok (tt, s1)
    /\ cell7 Ns reps s1 = Ok (tt, s2)
    /\ experiment_result Ns s1 = fst (run_spec (theta s) Ns reps (rng s))
    /\ experiment_result Ns s2 = fst (run_spec (theta s) Ns reps g1).
Proof.
  intros Hr HN g1. subst g1.
  destruct (cell7_ok Ns reps s Hr (fun _ => HN)) as (x_ & e_ & b1 & b2 & E).
  pose proof (run_spec_rng (theta s) Ns reps (rng s) Hr HN) as R.
  pose proof (run_spec_keys (theta s) Ns reps (rng s)) as K.
  destruct (run_spec (theta s) Ns reps (rng s)) as [res g'].
  simpl in R, K. subst g'.
  set (s1 := Globals _ _ _ _ _ _ _ _ _ _) in E.
  destruct (cell7_ok Ns reps s1 Hr (fun _ => HN))
    as (x2 & e2 & c1 & c2 & E2).
  subst s1. cbn [theta rng] in E2.
  pose proof (run_spec_keys (theta s) Ns reps
                (snd (draws (Z.to_nat (draws_used Ns reps)) (rng s)))) as K2.
  destruct (run_spec (theta s) Ns reps _) as [res2 g2].
  simpl in K2.
  eexists _, _. split; [exact E|]. split; [exact E2|].
  unfold experiment_result. rewrite !summaries_columns. split.
  - rewrite <- K at 1. apply zip_fst_snd.
  - rewrite <- K2 at 1. apply zip_fst_snd.
Qed.

End Cells.

(** * Further properties in binary64 *)

Section Signs.

Lemma binary_round_aux_nonneg m e l :
  SF_nonneg (binary_round_aux prec emax false m e l).
Proof.
  unfold binary_round_aux.
  destruct (shr_fexp prec emax m e l) as [mrs' e'].
  destruct (shr_fexp prec emax _ e' loc_Exact) as [mrs'' e''].
  destruct (shr_m mrs''); simpl; auto.
  destruct (_ <=? _); reflexivity.
Qed.

Lemma SFmul_self_nonneg f : SF_nonneg (SF64mul f f).
Proof.
  destruct f as [b|b| |b m e]; try (destruct b; reflexivity);
    [exact I|].
  unfold SF64mul, SFmul. rewrite xorb_nilpotent.
  apply binary_round_aux_nonneg.
Qed.

Lemma binary_normalize_nonneg m e :
  0 <= m -> SF_nonneg (binary_normalize prec emax m e false).
Proof.
  intros Hm. destruct m as [|p|p]; [reflexivity| |lia].
  cbn [binary_normalize]. unfold binary_round.
  destruct (shl_align p e _) as [mz ez]. apply binary_round_aux_nonneg.
Qed.

Lemma SFadd_nonneg f1 f2 :
  SF_nonneg f1 -> SF_nonneg f2 -> SF_nonneg (SF64add f1 f2).
Proof.
  destruct f1 as [b1|b1| |b1 m1 e1], f2 as [b2|b2| |b2 m2 e2];
    try (simpl; intros; subst; simpl; auto; fail).
  simpl SF_nonneg at 1 2. intros -> ->.
  unfold SF64add, SFadd, cond_Zopp. apply binary_normalize_nonneg. lia.
Qed.

Lemma SFdiv_nonneg f1 f2 :
  SF_nonneg f1 -> SF_nonneg f2 -> SF_nonneg (SF64div f1 f2).
Proof.
  destruct f1 as [b1|b1| |b1 m1 e1], f2 as [b2|b2| |b2 m2 e2];
    try (simpl; intros; subst; simpl; auto; fail).
  simpl SF_nonneg at 1 2. intros -> ->.
  unfold SF64div, SFdiv.
  destruct (SFdiv_core_binary _ _ _ _ _ _) as [[mz ez] lz].
  apply binary_round_aux_nonneg.
Qed.

Lemma float_of_nat_nonneg (n : nat) :
  SF_nonneg (Prim2SF (float_of_int (Z.of_nat n))).
Proof.
  destruct (Z.of_nat n) as [|p|p] eqn:E; [reflexivity| |lia].
  unfold float_of_int. rewrite of_uint63_spec.
  pose proof (Uint63.to_Z_bounded (Uint63.of_Z (Z.pos p))) as B.
  apply binary_normalize_nonneg. lia.
Qed.

Lemma SF_nonneg_not_below_zero v :
  SF_nonneg (Prim2SF v) -> PrimFloat.ltb v 0 = false.
Proof.
  intros Hv. rewrite FloatAxioms.ltb_spec.
  change (Prim2SF 0) with (S754_zero false).
  destruct (Prim2SF v) as [b|b| |b m e]; simpl in Hv; subst; reflexivity.
Qed.

Lemma fold_add_nonneg (l : list float) acc :
  SF_nonneg (Prim2SF acc) ->
  Forall (fun v => SF_nonneg (Prim2SF v)) l ->
  SF_nonneg (Prim2SF (fold_left PrimFloat.add l acc)).
Proof.
  intros Ha Hl. revert acc Ha.
  induction Hl as [|v l Hv _ IH]; intros acc Ha; simpl; [exact Ha|].
  apply IH. rewrite FloatAxioms.add_spec. apply SFadd_nonneg; assumption.
Qed.

End Signs.

Section NaN.

Lemma add_nan_r v : PrimFloat.add v nan = nan.
Proof.
  apply Prim2SF_inj. rewrite FloatAxioms.add_spec.
  change (Prim2SF nan) with S754_nan.
  destruct (Prim2SF v); reflexivity.
Qed.

Lemma add_nan_l v : PrimFloat.add nan v = nan.
Proof.
  apply Prim2SF_inj. rewrite FloatAxioms.add_spec.
  change (Prim2SF nan) with S754_nan. reflexivity.
Qed.

Lemma sub_nan_r v : PrimFloat.sub v nan = nan.
Proof.
  apply Prim2SF_inj. rewrite FloatAxioms.sub_spec.
  change (Prim2SF nan) with S754_nan.
  destruct (Prim2SF v); reflexivity.
Qed.

Lemma div_nan_l v : PrimFloat.div nan v = nan.
Proof.
  apply Prim2SF_inj. rewrite FloatAxioms.div_spec.
  change (Prim2SF nan) with S754_nan. reflexivity.
Qed.

(** Once the running sum is NaN it stays NaN. *)
Lemma fold_add_from_nan {A} (t : A -> float) (l : list A) :
  fold_left (fun acc v => PrimFloat.add acc (t v)) l nan = nan.
Proof.
  induction l as [|v l IH]; simpl; [reflexivity|].
  rewrite add_nan_l. exact IH.
Qed.

(** A NaN term makes the sum NaN. *)
Lemma fold_add_nan_term {A} (t : A -> float) (l : list A) (e : A) acc :
  In e l -> t e = nan ->
  fold_left (fun acc v => PrimFloat.add acc (t v)) l acc = nan.
Proof.
  intros Hin Ht. revert acc.
  induction l as [|v l IH]; intros acc; [destruct Hin|]. simpl.
  destruct Hin as [->|Hin].
  - rewrite Ht, add_nan_r. apply fold_add_from_nan.
  - apply IH, Hin.
Qed.

End NaN.

Section Statistics.
Variable pow : float -> float -> float.
Context {G : Type} `{Rng G float}.

Local Abbreviation A := (binary64 pow).

Implicit Types (s : @globals float G) (v : float) (a : list float).

Lemma np_sum_nan a : In nan a -> @np_sum float A a = nan.
Proof.
  intros Hin. unfold np_sum.
  apply (fold_add_nan_term (fun v => v) a nan); [exact Hin|reflexivity].
Qed.

Lemma np_mean_nan a : a = [] \/ In nan a -> @np_mean float A a = nan.
Proof.
  intros [->|Hin]; [reflexivity|].
  unfold np_mean. rewrite (np_sum_nan a Hin). apply div_nan_l.
Qed.

Lemma np_var_nan a : a = [] \/ In nan a -> @np_var float A a = nan.
Proof.
  intros Ha. destruct a as [|u a]; [reflexivity|].
  destruct Ha as [?|Hin]; [discriminate|].
  unfold np_var. rewrite (np_mean_nan (u :: a) (or_intror Hin)).
  rewrite zip_with_diag, map_map. cbn [fsub fmul binary64].
  unfold np_sum. cbn [map fold_left].
  cbn [fadd fzero binary64]. rewrite sub_nan_r.
  change (PrimFloat.mul nan nan) with nan.
  rewrite add_nan_r.
  rewrite (fold_add_from_nan (fun v => v) (map _ a)).
  apply div_nan_l.
Qed.

(** X7. A NaN among the trial values makes both statistics NaN: the mean
    and the variance that cell 7 records for an array containing a NaN (or
    for an empty array) are NaN. *)
Theorem mean_and_variance_propagate_nan a :
  a = [] \/ In nan a ->
  @np_mean float A a = nan /\ @np_var float A a = nan.
Proof.
  intros Ha. split; [apply np_mean_nan|apply np_var_nan]; exact Ha.
Qed.

Lemma np_var_nonneg a : SF_nonneg (Prim2SF (@np_var float A a)).
Proof.
  unfold np_var. rewrite zip_with_diag, map_map.
  cbn [fdiv binary64]. rewrite FloatAxioms.div_spec.
  apply SFdiv_nonneg; [|apply float_of_nat_nonneg].
  unfold np_sum. cbn [fadd fzero binary64].
  apply fold_add_nonneg; [reflexivity|].
  apply List.Forall_forall. intros v Hv.
  apply in_map_iff in Hv as (u & <- & _).
  cbn [fmul binary64]. rewrite FloatAxioms.mul_spec.
  apply SFmul_self_nonneg.
Qed.

(** A property of every summary is a property of every entry that [run_spec]
    records. *)
Lemma run_spec_column (P : float -> Prop) (f : summary -> float)
    (theta_ : float) Ns reps (g : G) :
  (forall vs : list (float * float),
      length vs = Z.to_nat reps -> P (f (@summarize float A vs))) ->
  Forall P (column f (fst (@run_spec float G A _ theta_ Ns reps g))).
Proof.
  intros HP. revert g. induction Ns as [|N Ns IH]; intros g; simpl.
  - constructor.
  - pose proof (@trials_spec_length float G A _ theta_ (Z.to_nat N)
                  (Z.to_nat reps) g) as L.
    destruct (trials_spec theta_ (Z.to_nat N) (Z.to_nat reps) g) as [vs g1].
    specialize (IH g1).
    destruct (run_spec theta_ Ns reps g1) as [rest g2].
    simpl in *. constructor; [apply HP, L|exact IH].
Qed.

(** X8. No variance that cell 7 records is below zero: every entry of
    [vars1] and [vars2] is a number with a clear sign bit, or NaN. *)
Theorem cell7_variances_never_negative Ns reps s :
  0 <= reps -> Forall (fun N => 0 <= N) Ns ->
  exists s',
    @cell7 float G A _ Ns reps s = Ok (tt, s')
    /\ Forall (fun v => PrimFloat.ltb v 0 = false) (vars1 s')
    /\ Forall (fun v => PrimFloat.ltb v 0 = false) (vars2 s').
Proof.
  intros Hr HN.
  destruct (@cell7_ok float G A _ Ns reps s Hr (fun _ => HN))
    as (x_ & e_ & b1 & b2 & E).
  pose proof (run_spec_column (fun v => PrimFloat.ltb v 0 = false)
                var_estimator_A (theta s) Ns reps (rng s)) as V1.
  pose proof (run_spec_column (fun v => PrimFloat.ltb v 0 = false)
                var_estimator_B (theta s) Ns reps (rng s)) as V2.
  destruct (run_spec (theta s) Ns reps (rng s)) as [res g'].
  eexists. split; [exact E|]. simpl. split.
  - apply V1. intros vs _. apply SF_nonneg_not_below_zero, np_var_nonneg.
  - apply V2. intros vs _. apply SF_nonneg_not_below_zero, np_var_nonneg.
Qed.

(** X9. With a single repetition every variance that cell 7 records is
    +0.0 or NaN, whatever the sample sizes. *)
Theorem single_repetition_variances Ns s :
  Forall (fun N => 0 <= N) Ns ->
  exists s',
    @cell7 float G A _ Ns 1 s = Ok (tt, s')
    /\ Forall (fun v => v = 0%float \/ v = nan) (vars1 s')
    /\ Forall (fun v => v = 0%float \/ v = nan) (vars2 s').
Proof.
  intros HN.
  destruct (@cell7_ok float G A _ Ns 1 s ltac:(lia) (fun _ => HN))
    as (x_ & e_ & b1 & b2 & E).
  pose proof (run_spec_column (fun v => v = 0%float \/ v = nan)
                var_estimator_A (theta s) Ns 1 (rng s)) as V1.
  pose proof (run_spec_column (fun v => v = 0%float \/ v = nan)
                var_estimator_B (theta s) Ns 1 (rng s)) as V2.
  destruct (run_spec (theta s) Ns 1 (rng s)) as [res g'].
  eexists. split; [exact E|]. simpl. split.
  - apply V1. intros [|[u1 u2] [|? ?]] L; try discriminate.
    unfold summarize. cbn [var_estimator_A map fst].
    rewrite np_var_singleton. destruct (is_finite u1); auto.
  - apply V2. intros [|[u1 u2] [|? ?]] L; try discriminate.
    unfold summarize. cbn [var_estimator_B map snd].
    rewrite np_var_singleton. destruct (is_finite u2); auto.
Qed.

End Statistics.

Section Degenerate.
Variable pow : float -> float -> float.
Context {G : Type} `{Rng G float}.

Local Abbreviation A := (binary64 pow).

Implicit Types (s : @globals float G) (v : float) (a : list float) (g : G).

Lemma run_spec_no_repetitions (f : summary -> float) (theta_ : float) Ns g :
  column f (fst (@run_spec float G A _ theta_ Ns 0 g))
  = replicate (length Ns) (f (@summarize float A []))
  /\ snd (@run_spec float G A _ theta_ Ns 0 g) = g.
Proof.
  induction Ns as [|N Ns [IH1 IH2]]; simpl; [split; reflexivity|].
  change (Z.to_nat 0) with 0%nat. simpl trials_spec.
  destruct (run_spec theta_ Ns 0 g) as [rest g2]. simpl in *.
  subst g2. split; [|reflexivity]. f_equal. exact IH1.
Qed.

(** X10. With [reps = 0] cell 7 never calls [randn], whatever the sample
    sizes (negative ones included): it returns with the generator
    untouched, the buffers empty, and NaN, the mean and variance of an
    empty array, in every entry of the four result arrays. *)
Theorem no_repetitions_gives_nan_and_draws_nothing Ns s :
  exists s',
    @cell7 float G A _ Ns 0 s = Ok (tt, s')
    /\ means1 s' = replicate (length Ns) nan
    /\ vars1 s' = replicate (length Ns) nan
    /\ means2 s' = replicate (length Ns) nan
    /\ vars2 s' = replicate (length Ns) nan
    /\ rng s' = rng s.
Proof.
  destruct (@cell7_ok float G A _ Ns 0 s) as (x_ & e_ & b1 & b2 & E);
    [lia|intros ?; lia|].
  pose proof (fun f => run_spec_no_repetitions f (theta s) Ns (rng s)) as R.
  destruct (run_spec (theta s) Ns 0 (rng s)) as [res g'].
  eexists. split; [exact E|]. simpl in R |- *.
  split; [exact (proj1 (R mean_estimator_A))|].
  split; [exact (proj1 (R var_estimator_A))|].
  split; [exact (proj1 (R mean_estimator_B))|].
  split; [exact (proj1 (R var_estimator_B))|].
  exact (proj2 (R mean_estimator_A)).
Qed.

Lemma run_spec_lookup (theta_ : float) Ns reps g (i : nat) N :
  Ns !! i = Some N ->
  exists g_i,
    fst (@run_spec float G A _ theta_ Ns reps g) !! i
    = Some (N, @summarize float A
                 (fst (@trials_spec float G A _ theta_
                         (Z.to_nat N) (Z.to_nat reps) g_i))).
Proof.
  revert g i. induction Ns as [|M Ns IH]; intros g i Hi; [discriminate|].
  simpl. destruct i as [|i].
  - injection Hi as ->. exists g.
    destruct (trials_spec theta_ (Z.to_nat N) (Z.to_nat reps) g) as [vs g1].
    destruct (run_spec theta_ Ns reps g1) as [rest g2]. reflexivity.
  - destruct (trials_spec theta_ (Z.to_nat M) (Z.to_nat reps) g) as [vs g1].
    destruct (IH g1 i Hi) as [g_i E]. exists g_i.
    destruct (run_spec theta_ Ns reps g1) as [rest g2]. exact E.
Qed.

Lemma column_lookup (f : summary -> float)
    (res : list (Z * @summary float)) (i : nat) p :
  res !! i = Some p -> column f res !! i = Some (f (snd p)).
Proof.
  revert i. induction res as [|q res IH]; intros [|i] Hi; try discriminate.
  - injection Hi as ->. reflexivity.
  - apply IH, Hi.
Qed.

Lemma trials_spec_empty_sample (theta_ : float) k g :
  fst (@trials_spec float G A _ theta_ 0 k g) = replicate k (nan, nan).
Proof.
  induction k as [|k IH]; [reflexivity|].
  simpl trials_spec. change (trial_spec theta_ 0 g) with ((nan, nan), g).
  cbv iota beta.
  destruct (trials_spec theta_ 0 k g) as [vs g2]. simpl in *.
  rewrite IH. reflexivity.
Qed.

Lemma replicate_nan_cases {B} (h : float * float -> B) (k : nat) :
  forall w, w = h (nan, nan) ->
  map h (replicate k (nan, nan)) = [] \/ In w (map h (replicate k (nan, nan))).
Proof.
  intros w ->. destruct k; [left; reflexivity|right; left; reflexivity].
Qed.

(** X11. A sample size of 0 gives NaN throughout: the estimators of an
    empty array are 0/0, so the mean and the variance that cell 7 records
    at that size's index are NaN for both estimators. *)
Theorem empty_sample_gives_nan Ns reps s (i : nat) :
  0 <= reps -> Forall (fun N => 0 <= N) Ns -> Ns !! i = Some 0 ->
  exists s',
    @cell7 float G A _ Ns reps s = Ok (tt, s')
    /\ means1 s' !! i = Some nan /\ vars1 s' !! i = Some nan
    /\ means2 s' !! i = Some nan /\ vars2 s' !! i = Some nan.
Proof.
  intros Hr HN Hi.
  destruct (@cell7_ok float G A _ Ns reps s Hr (fun _ => HN))
    as (x_ & e_ & b1 & b2 & E).
  destruct (run_spec_lookup (theta s) Ns reps (rng s) i 0 Hi) as [g_i L].
  destruct (run_spec (theta s) Ns reps (rng s)) as [res g'].
  eexists. split; [exact E|]. simpl in L |- *.
  change (Z.to_nat 0) with 0%nat in L.
  rewrite trials_spec_empty_sample in L.
  pose proof (replicate_nan_cases fst (Z.to_nat reps) nan eq_refl) as C1.
  pose proof (replicate_nan_cases snd (Z.to_nat reps) nan eq_refl) as C2.
  repeat split;
    rewrite (column_lookup _ _ _ _ L); unfold summarize; simpl; f_equal;
    first [apply np_mean_nan|apply np_var_nan]; assumption.
Qed.

(** X12. [grad2] has a singularity where [theta + eps_i] is zero: the term
    is [0 / (4 * 0**1.75) = 0/0], and one such element makes the whole
    estimate NaN (for a [pow] with [0**1.75 = 0], as the C library's). *)
Theorem grad2_nan_at_singularity a (e : float) s :
  pow 0 1.75 = 0%float ->
  In e a -> PrimFloat.eqb (PrimFloat.add (theta s) e) 0 = true ->
  @grad2 float G A a s = Ok (nan, s).
Proof.
  intros Hp Hin Hz. rewrite grad2_value. do 2 f_equal.
  assert (exists b, Prim2SF (PrimFloat.add (theta s) e) = S754_zero b)
    as [b Eb].
  { rewrite FloatAxioms.eqb_spec in Hz.
    change (Prim2SF 0) with (S754_zero false) in Hz.
    destruct (Prim2SF (PrimFloat.add (theta s) e)) as [b|b| |b m ex];
      try discriminate; try (destruct b; discriminate).
    eexists; reflexivity. }
  assert (@g_derivative float A (PrimFloat.add (theta s) e) = nan) as Eg.
  { unfold g_derivative. cbn [fdiv fmul fpow fabs fsub of_int binary64].
    assert (abs (PrimFloat.add (theta s) e) = 0%float) as ->
      by (apply Prim2SF_inj; rewrite FloatAxioms.abs_spec, Eb; reflexivity).
    change (PrimFloat.sub (float_of_int 2) (@quarter float A))
      with 1.75%float.
    rewrite Hp. change (PrimFloat.mul (float_of_int 4) 0) with 0%float.
    apply Prim2SF_inj. rewrite FloatAxioms.div_spec, Eb.
    destruct b; reflexivity. }
  unfold big_sum. cbn [fadd fzero fdiv binary64].
  rewrite (fold_add_nan_term
             (fun e0 => @g_derivative float A (PrimFloat.add (theta s) e0))
             a e 0%float Hin Eg).
  apply div_nan_l.
Qed.

End Degenerate.

(** * The further properties at concrete inputs *)

Section MoreWitnesses.
Import Concrete.
Local Open Scope float_scope.

(** Sample sizes 2 and 1, two repetitions: 2 * 2 * 3 = 12 draws. *)
Lemma cell7_uses_2_reps_sum_Ns_draws_witness :
  let s := state 0.1 []
             [1; 2; 3; 4; 5; 6; 7; 8; 9; 10; 11; 12; 13; 14] in
  draws_used [2; 1]%Z 2 = 12%Z
  /\ exists s', cell7_64 [2; 1]%Z 2 s = Ok (tt, s') /\ rng s' = [13; 14].
Proof.
  intros s. split; [reflexivity|].
  assert (0 <= 2)%Z as Hr by lia.
  assert (Forall (fun N => 0 <= N)%Z [2; 1]%Z) as HN
    by (repeat constructor; lia).
  destruct (@cell7_uses_2_reps_sum_Ns_draws float (list float) A64 tape64
              [2; 1]%Z 2 s Hr HN) as (s' & E & R).
  exists s'. split; [exact E|]. rewrite R. reflexivity.
Defined.

Lemma cell7_array_shapes_witness :
  let s := state 0.1 [] [0.9; 15.9; 0.4; -1.1; 0.5; 0.2] in
  exists s',
    cell7_64 [2; 1]%Z 1 s = Ok (tt, s')
    /\ length (means1 s') = 2%nat /\ length (est1 s') = 1%nat.
Proof.
  intros s.
  assert (0 <= 1)%Z as Hr by lia.
  assert (Forall (fun N => 0 <= N)%Z [2; 1]%Z) as HN
    by (repeat constructor; lia).
  destruct (@cell7_array_shapes float (list float) A64 tape64
              [2; 1]%Z 1 s Hr HN) as (s' & E & L1 & _ & _ & _ & L5 & _).
  exists s'. split; [exact E|]. split; [exact L1|exact L5].
Defined.

(** Entered with a three-element [x] and a three-element [eps]. *)
Lemma cell7_keeps_x_and_eps_aligned_witness :
  let s := Globals 0.1 [1; 2; 3] [4; 5; 6] [] [] [] [] [] []
             [0.9; 15.9; 0.4; -1.1] in
  length (x s) = length (eps s)
  /\ exists s',
      cell7_64 [2]%Z 1 s = Ok (tt, s') /\ length (x s') = length (eps s').
Proof.
  intros s. split; [reflexivity|].
  assert (0 <= 1)%Z as Hr by lia.
  assert (Forall (fun N => 0 <= N)%Z [2]%Z) as HN
    by (repeat constructor; lia).
  destruct (@cell7_keeps_x_and_eps_aligned float (list float) A64 tape64
              [2]%Z 1 s Hr HN eq_refl) as (s' & E & L & _).
  exists s'. split; [exact E|exact L].
Defined.

(** Cell 5 on two draws, then cell 7 on the four that follow. *)
Lemma notebook_runs_experiment_after_cell5_witness :
  let s := state 0 [] [0.9; 15.9; 0.9; 0.4; 15.9; -1.1] in
  exists p s',
    notebook_64 2 0.1 [1]%Z 2 s = Ok (p, s')
    /\ experiment_result [1]%Z s'
       = fst (@run_spec float (list float) A64 tape64 0.1 [1]%Z 2
                [0.9; 0.4; 15.9; -1.1])
    /\ theta s' = 0.1.
Proof.
  intros s.
  assert (0 <= 2)%Z as H2 by lia.
  assert (Forall (fun N => 0 <= N)%Z [1]%Z) as HN
    by (repeat constructor; lia).
  destruct (@notebook_runs_experiment_after_cell5 float (list float)
              A64 tape64 2 0.1 [1]%Z 2 s H2 H2 HN) as (s' & E & R & T).
  eexists _, s'. split; [exact E|]. split; [exact R|exact T].
Defined.

(** Two runs in a row at sample size 1, one repetition: two draws each. *)
Lemma cell7_rerun_continues_the_stream_witness :
  let s := state 0.1 [] [0.9; 0.4; 15.9; -1.1] in
  draws_used [1]%Z 1 = 2%Z
  /\ exists s1 s2,
      cell7_64 [1]%Z 1 s = Ok (tt, s1)
      /\ cell7_64 [1]%Z 1 s1 = Ok (tt, s2)
      /\ experiment_result [1]%Z s2
         = fst (@run_spec float (list float) A64 tape64 0.1 [1]%Z 1
                  [15.9; -1.1]).
Proof.
  intros s. split; [reflexivity|].
  assert (0 <= 1)%Z as Hr by lia.
  assert (Forall (fun N => 0 <= N)%Z [1]%Z) as HN
    by (repeat constructor; lia).
  destruct (@cell7_rerun_continues_the_stream float (list float) A64 tape64
              [1]%Z 1 s Hr HN) as (s1 & s2 & E1 & E2 & _ & R2).
  exists s1, s2. split; [exact E1|]. split; [exact E2|exact R2].
Defined.

Lemma mean_and_variance_propagate_nan_witness :
  np_mean64 [0.5; nan; 0.25] = nan /\ np_var64 [0.5; nan; 0.25] = nan.
Proof.
  exact (@mean_and_variance_propagate_nan pow_sqrt [0.5; nan; 0.25]
           (or_intror (or_intror (or_introl eq_refl)))).
Defined.

Lemma cell7_variances_never_negative_witness :
  let s := state 0.1 [] [0.9; 15.9; 0.4; -1.1; 0.5; 0.2; 0.3; 0.7] in
  exists s',
    cell7_64 [1]%Z 2 s = Ok (tt, s')
    /\ Forall (fun v => PrimFloat.ltb v 0 = false) (vars1 s')
    /\ Forall (fun v => PrimFloat.ltb v 0 = false) (vars2 s').
Proof.
  intros s.
  assert (0 <= 2)%Z as Hr by lia.
  assert (Forall (fun N => 0 <= N)%Z [1]%Z) as HN
    by (repeat constructor; lia).
  exact (@cell7_variances_never_negative pow_sqrt (list float) tape64
           [1]%Z 2 s Hr HN).
Defined.

Lemma single_repetition_variances_witness :
  let s := state 0.1 [] [0.9; 15.9; 0.4; -1.1; 0.5; 0.2] in
  exists s',
    cell7_64 [2; 1]%Z 1 s = Ok (tt, s')
    /\ Forall (fun v => v = 0 \/ v = nan) (vars1 s')
    /\ Forall (fun v => v = 0 \/ v = nan) (vars2 s').
Proof.
  intros s.
  assert (Forall (fun N => 0 <= N)%Z [2; 1]%Z) as HN
    by (repeat constructor; lia).
  exact (@single_repetition_variances pow_sqrt (list float) tape64
           [2; 1]%Z s HN).
Defined.

(** Sample sizes 1 and 0, two repetitions: index 1 belongs to size 0. *)
Lemma empty_sample_gives_nan_witness :
  let s := state 0.1 [] [0.9; 15.9; 0.4; -1.1] in
  exists s',
    cell7_64 [1; 0]%Z 2 s = Ok (tt, s')
    /\ means1 s' !! 1%nat = Some nan /\ vars1 s' !! 1%nat = Some nan
    /\ means2 s' !! 1%nat = Some nan /\ vars2 s' !! 1%nat = Some nan.
Proof.
  intros s.
  assert (0 <= 2)%Z as Hr by lia.
  assert (Forall (fun N => 0 <= N)%Z [1; 0]%Z) as HN
    by (repeat constructor; lia).
  exact (@empty_sample_gives_nan pow_sqrt (list float) tape64
           [1; 0]%Z 2 s 1%nat Hr HN eq_refl).
Defined.

(** [theta = 0.1] and a noise array holding [-0.1]. *)
Lemma grad2_nan_at_singularity_witness :
  let s := state 0.1 [0; 0] [] in
  pow_sqrt 0 1.75 = 0
  /\ PrimFloat.eqb (0.1 + -0.1) 0 = true
  /\ grad2_64 [0.5; -0.1] s = Ok (nan, s).
Proof.
  intros s. split; [reflexivity|]. split; [reflexivity|].
  exact (@grad2_nan_at_singularity pow_sqrt (list float) [0.5; -0.1] (-0.1) s
           eq_refl (or_intror (or_introl eq_refl)) eq_refl).
Defined.

End MoreWitnesses.
